(** * Sew: threading decorators, over a small model of [threading]

    The source file [sew.py] defines two subclasses of the standard
    [threading.Thread] and [threading.Timer] classes, which keep the value
    their target returns, and eight decorators that build a background unit,
    start it and, for some of them, join it and read that value.

    The development has these parts:

    - the model: a free monad [py] of the [threading] operations the source
      performs (construct, set [daemon], [start], [join], attribute read and
      write, the timer's [finished] event), with the target function as an
      atomic transformer of an abstract shared world; an executable
      small-step semantics, where one move is a step of the caller, a step of
      one background unit, or the passing of time; and the two classes and
      eight decorators of the source written in [py];
    - the reachable states of one decorated call, as an inductive invariant
      of the step function ([phase] for the unit, [sew_inv] for the call);
    - the discipline of the Result Slot, as an invariant of every run of a
      caller that makes any sequence of decorated calls ([pool_inv]);
    - the properties of the decorators, numbered as in the list of claims.

    Time is a logical clock in seconds; rationals stand for Python's finite
    floats. The standard library's part ([Thread.run], [Timer.run],
    [Event.wait], [start], [join], the excepthook) follows CPython's
    [threading.py]. What the source leaves to its environment is a parameter
    of the model ([Runtime]): the largest timeout a timed wait accepts, and
    whether the thread that makes the calls is a daemon thread. *)

From Stdlib Require Import List String ZArith QArith Lqa Lia Bool Arith.
Import ListNotations.
Close Scope Q_scope.

Set Implicit Arguments.

(* ------------------------------------------------------------------ *)
(** ** Python values, exceptions and functions *)

Inductive value : Type :=
| VNone
| VBool (b : bool)
| VInt (z : Z)
| VFloat (q : Q)
| VStr (s : string).

(** An exception is identified by the name of its class. *)
Definition exn := string.

Definition args_t := list value.
Definition kwargs_t := list (string * value).

(** The environment of the library. [TIMEOUT_MAX] is the largest timeout, in
    seconds, that the runtime's timed lock acquire accepts; it depends on the
    platform, and CPython publishes it, rounded down to a whole number, as
    [threading.TIMEOUT_MAX]. [caller_daemon] is [current_thread().daemon] in
    the thread that calls the decorated functions: [False] in the main
    thread, and whatever it was made with in any other. *)
Class Runtime : Type := {
  TIMEOUT_MAX : Q;
  caller_daemon : bool
}.

(** The number a value is when Python compares it with [0]; [bool] is a
    subclass of [int]. *)
Definition number_of (v : value) : option Q :=
  match v with
  | VBool b => Some (if b then 1%Q else 0%Q)
  | VInt z => Some (inject_Z z)
  | VFloat q => Some q
  | _ => None
  end.

(** How a timeout argument is read by [Event.wait] / [Condition.wait]:
    [if timeout is None: waiter.acquire()]
    [else: if timeout > 0: gotit = waiter.acquire(True, timeout)]
    [      else: gotit = waiter.acquire(False)].
    [None] waits without limit; anything that is not a number makes the
    comparison [timeout > 0] raise [TypeError]; a positive number above
    [TIMEOUT_MAX] makes the timed acquire raise [OverflowError]. *)
Inductive timeout_kind : Type :=
| Forever
| Seconds (d : Q)
| BadTimeout
| TooLong.

Definition timed_acquire {rt : Runtime} (d : Q) : timeout_kind :=
  if Qle_bool d 0%Q then Seconds d
  else if Qle_bool d TIMEOUT_MAX then Seconds d else TooLong.

Definition classify_timeout {rt : Runtime} (v : value) : timeout_kind :=
  match v with
  | VNone => Forever
  | _ => match number_of v with
         | Some d => timed_acquire d
         | None => BadTimeout
         end
  end.

(** Whether a wait with this timeout raises instead of waiting. *)
Definition wait_fails {rt : Runtime} (v : value) : bool :=
  match classify_timeout v with
  | BadTimeout | TooLong => true
  | Forever | Seconds _ => false
  end.

(** How long a timed wait of [d] seconds lasts:
    [if timeout > 0: timed acquire, else: non-blocking acquire]. *)
Definition nap (d : Q) : Q := if Qle_bool d 0%Q then 0%Q else d.

Definition deadline_after (now d : Q) : Q := (now + nap d)%Q.

Definition tid := nat.

Inductive lifecycle : Type := Created | Started | Finished.

Inductive actor : Type :=
| Caller
| Unit (t : tid).

Section Model.

Context {World : Type}.

(** The result of calling a Python function in a given world. *)
Inductive outcome : Type :=
| Returns (v : value) (w : World)
| Raises (e : exn) (w : World)
| Diverges.

Definition pyfun := args_t -> kwargs_t -> World -> outcome.

(** The Call Descriptor: [(function, args, kwargs)]. *)
Definition call_descriptor := (pyfun * args_t * kwargs_t)%type.

(** [lambda: None] *)
Definition lambda_None : pyfun := fun _ _ w => Returns VNone w.

(** The four classes of background unit, with the fields their constructors
    store. [Thread] and [Timer] are the standard classes; the two others are
    the subclasses of the source. *)
Inductive unit_kind : Type :=
| KThread (target : pyfun) (args : args_t) (kwargs : kwargs_t)
| KTimer (interval : value) (function : pyfun) (args : args_t) (kwargs : kwargs_t)
| KFunctionThreadWithReturnValue (_call : call_descriptor)
| KDelayedFunctionWithReturnValue (interval : value) (_call : call_descriptor).

(* ------------------------------------------------------------------ *)
(** ** The monad of threading operations *)

Inductive py (A : Type) : Type :=
| Ret (a : A)
| Invoke (f : pyfun) (args : args_t) (kwargs : kwargs_t) (k : value -> py A)
| New (kd : unit_kind) (k : tid -> py A)
| SetDaemon (t : tid) (b : bool) (k : py A)
| Start (t : tid) (k : py A)
| Join (t : tid) (k : py A)
| GetReturnValue (t : tid) (k : value -> py A)
| SetReturnValue (t : tid) (v : value) (k : py A)
| EventWait (t : tid) (timeout : value) (deadline : option Q) (k : py A)
| EventIsSet (t : tid) (k : bool -> py A)
| EventSet (t : tid) (k : py A).

Arguments Ret {A} a.

Fixpoint bind {A B : Type} (m : py A) (f : A -> py B) : py B :=
  match m with
  | Ret a => f a
  | Invoke g a kw k => Invoke g a kw (fun v => bind (k v) f)
  | New kd k => New kd (fun t => bind (k t) f)
  | SetDaemon t b k => SetDaemon t b (bind k f)
  | Start t k => Start t (bind k f)
  | Join t k => Join t (bind k f)
  | GetReturnValue t k => GetReturnValue t (fun v => bind (k v) f)
  | SetReturnValue t v k => SetReturnValue t v (bind k f)
  | EventWait t d dl k => EventWait t d dl (bind k f)
  | EventIsSet t k => EventIsSet t (fun b => bind (k b) f)
  | EventSet t k => EventSet t (bind k f)
  end.

End Model.

Arguments outcome : clear implicits.
Arguments pyfun : clear implicits.
Arguments call_descriptor : clear implicits.
Arguments unit_kind : clear implicits.
Arguments py : clear implicits.
Arguments Ret {World A} a.

Declare Scope py_scope.
Delimit Scope py_scope with py.
Notation "x <- m ;; k" := (bind m (fun x => k))
  (at level 61, m at next level, right associativity) : py_scope.
Notation "m ;; k" := (bind m (fun _ => k))
  (at level 61, right associativity) : py_scope.
Open Scope py_scope.

Section Semantics.

Context {World : Type} {rt : Runtime}.

Local Abbreviation pyfun := (pyfun World).
Local Abbreviation unit_kind := (unit_kind World).
Local Abbreviation py := (py World).
Local Abbreviation call_descriptor := (call_descriptor World).

(** The operations, named as the source calls them. *)
Definition call (f : pyfun) (args : args_t) (kwargs : kwargs_t) : py value :=
  Invoke f args kwargs (fun v => Ret v).
Definition construct (kd : unit_kind) : py tid := New kd (fun t => Ret t).
Definition set_daemon (t : tid) (b : bool) : py unit := SetDaemon t b (Ret tt).
Definition start (t : tid) : py unit := Start t (Ret tt).
Definition join (t : tid) : py unit := Join t (Ret tt).
Definition get_return_value (t : tid) : py value :=
  GetReturnValue t (fun v => Ret v).
Definition set_return_value (t : tid) (v : value) : py unit :=
  SetReturnValue t v (Ret tt).
Definition finished_wait (t : tid) (timeout : value) : py unit :=
  EventWait t timeout None (Ret tt).
Definition finished_is_set (t : tid) : py bool := EventIsSet t (fun b => Ret b).
Definition finished_set (t : tid) : py unit := EventSet t (Ret tt).
Definition ret {A : Type} (a : A) : py A := Ret a.

(* ------------------------------------------------------------------ *)
(** ** The run bodies of the four classes *)

(** [threading.Thread.run]: call the target, drop its value. *)
Definition Thread_run (target : pyfun) (args : args_t) (kwargs : kwargs_t)
  : py unit :=
  _ <- call target args kwargs ;;
  ret tt.

(** [threading.Timer.run]:
    [self.finished.wait(self.interval)]
    [if not self.finished.is_set(): self.function( *self.args, **self.kwargs)]
    [self.finished.set()] *)
Definition Timer_run (self : tid) (interval : value) (function : pyfun)
    (args : args_t) (kwargs : kwargs_t) : py unit :=
  finished_wait self interval ;;
  is_set <- finished_is_set self ;;
  (if negb is_set then _ <- call function args kwargs ;; ret tt else ret tt) ;;
  finished_set self.

(** [_FunctionThreadWithReturnValue.run] *)
Definition FunctionThreadWithReturnValue_run (self : tid)
    (_call : call_descriptor) : py unit :=
  let '(function, args, kwargs) := _call in
  v <- call function args kwargs ;;
  set_return_value self v.

(** [_DelayedFunctionWithReturnValue.run]; the base timer was built by
    [super().__init__(seconds, lambda: None)]. *)
Definition DelayedFunctionWithReturnValue_run (self : tid) (interval : value)
    (_call : call_descriptor) : py unit :=
  Timer_run self interval lambda_None [] [] ;;
  let '(function, args, kwargs) := _call in
  v <- call function args kwargs ;;
  set_return_value self v.

(** Method dispatch on the class of the unit. *)
Definition run (self : tid) (kd : unit_kind) : py unit :=
  match kd with
  | KThread target args kwargs => Thread_run target args kwargs
  | KTimer interval function args kwargs =>
      Timer_run self interval function args kwargs
  | KFunctionThreadWithReturnValue c => FunctionThreadWithReturnValue_run self c
  | KDelayedFunctionWithReturnValue interval c =>
      DelayedFunctionWithReturnValue_run self interval c
  end.

(** The Result Slot after [__init__]: the two subclasses of the source set
    [self.return_value = None]; the standard classes have no such attribute. *)
Definition initial_slot (kd : unit_kind) : option value :=
  match kd with
  | KThread _ _ _ => None
  | KTimer _ _ _ _ => None
  | KFunctionThreadWithReturnValue _ => Some VNone
  | KDelayedFunctionWithReturnValue _ _ => Some VNone
  end.

(** The interval a timer was built with. *)
Definition interval_of (kd : unit_kind) : option value :=
  match kd with
  | KThread _ _ _ => None
  | KTimer interval _ _ _ => Some interval
  | KFunctionThreadWithReturnValue _ => None
  | KDelayedFunctionWithReturnValue interval _ => Some interval
  end.

(* ------------------------------------------------------------------ *)
(** ** Background units, events and configurations *)

Record bg_unit : Type := mkUnit {
  kind : unit_kind;
  return_value : option value;   (* the Result Slot; [None]: no attribute *)
  daemon : bool;
  status : lifecycle;
  finished_flag : bool;          (* the timer's [finished] event *)
  body : py unit                 (* what is left of [run] *)
}.

Inductive label : Type :=
| LNew (t : tid) (kd : unit_kind)
| LSetDaemon (t : tid) (b : bool)
| LStart (t : tid)
| LJoin (t : tid)
| LRead (t : tid) (v : value)
| LWrite (t : tid) (v : value)
| LReturned (f : pyfun) (args : args_t) (kwargs : kwargs_t) (v : value)
| LRaised (f : pyfun) (args : args_t) (kwargs : kwargs_t) (e : exn)
| LWaitBegin (t : tid)
| LWaitEnd (t : tid)
| LEventSet (t : tid)
| LExcepthook (e : exn)
| LExit.

Definition event := (actor * label)%type.

Record config : Type := mkConfig {
  now : Q;
  world : World;
  pool : list bg_unit;
  log : list event               (* newest first *)
}.

Inductive caller_state : Type :=
| Run (p : py value)
| Uncaught (e : exn).

Record state : Type := mkState {
  caller : caller_state;
  conf : config
}.

(** A unit after [__init__]. No decorator passes [daemon=] to the
    constructor, so [Thread.__init__] takes the flag from the thread that
    runs it: [self._daemonic = current_thread().daemon]. *)
Definition new_unit (current_daemon : bool) (t : tid) (kd : unit_kind)
  : bg_unit :=
  mkUnit kd (initial_slot kd) current_daemon Created false (run t kd).

Fixpoint set_nth {A : Type} (n : nat) (a : A) (l : list A) : list A :=
  match l, n with
  | [], _ => []
  | _ :: l', O => a :: l'
  | x :: l', S n' => x :: set_nth n' a l'
  end.

Definition emit (who : actor) (l : label) (c : config) : config :=
  mkConfig (now c) (world c) (pool c) ((who, l) :: log c).

Definition put_unit (t : tid) (u : bg_unit) (c : config) : config :=
  mkConfig (now c) (world c) (set_nth t u (pool c)) (log c).

Definition put_world (w : World) (c : config) : config :=
  mkConfig (now c) w (pool c) (log c).

(** [current_thread().daemon] for the actor [who]. *)
Definition current_thread_daemon (who : actor) (c : config) : bool :=
  match who with
  | Caller => caller_daemon
  | Unit t =>
      match nth_error (pool c) t with
      | Some u => daemon u
      | None => false
      end
  end.

Definition actor_eqb (a b : actor) : bool :=
  match a, b with
  | Caller, Caller => true
  | Unit t, Unit t' => Nat.eqb t t'
  | _, _ => false
  end.

(* ------------------------------------------------------------------ *)
(** ** One step of one actor *)

Inductive result (A : Type) : Type :=
| Next (p : py A) (c : config)
| Throw (e : exn) (c : config)
| Block
| Halt (a : A).

Arguments Next {A} p c.
Arguments Throw {A} e c.
Arguments Block {A}.
Arguments Halt {A} a.

Definition RuntimeError : exn := "RuntimeError"%string.
Definition TypeError : exn := "TypeError"%string.
Definition AttributeError : exn := "AttributeError"%string.
Definition NameError : exn := "NameError"%string.
Definition OverflowError : exn := "OverflowError"%string.

(** [exec who p c]: the actor [who] performs the first operation of [p]. *)
Definition exec {A : Type} (who : actor) (p : py A) (c : config) : result A :=
  match p with
  | Ret a => Halt a
  | Invoke f args kwargs k =>
      match f args kwargs (world c) with
      | Returns v w =>
          Next (k v) (emit who (LReturned f args kwargs v) (put_world w c))
      | Raises e w =>
          Throw e (emit who (LRaised f args kwargs e) (put_world w c))
      | Diverges => Block
      end
  | New kd k =>
      let t := List.length (pool c) in
      Next (k t)
           (emit who (LNew t kd)
              (mkConfig (now c) (world c)
                 (pool c ++ [new_unit (current_thread_daemon who c) t kd])
                 (log c)))
  | SetDaemon t b k =>
      match nth_error (pool c) t with
      | None => Throw NameError c
      | Some u =>
          match status u with
          | Created =>
              Next k (emit who (LSetDaemon t b)
                        (put_unit t (mkUnit (kind u) (return_value u) b
                                       (status u) (finished_flag u) (body u)) c))
          | _ => Throw RuntimeError c
          end
      end
  | Start t k =>
      match nth_error (pool c) t with
      | None => Throw NameError c
      | Some u =>
          match status u with
          | Created =>
              Next k (emit who (LStart t)
                        (put_unit t (mkUnit (kind u) (return_value u) (daemon u)
                                       Started (finished_flag u) (body u)) c))
          | _ => Throw RuntimeError c
          end
      end
  | Join t k =>
      match nth_error (pool c) t with
      | None => Throw NameError c
      | Some u =>
          match status u with
          | Created => Throw RuntimeError c
          | Started =>
              if actor_eqb who (Unit t) then Throw RuntimeError c else Block
          | Finished => Next k (emit who (LJoin t) c)
          end
      end
  | GetReturnValue t k =>
      match nth_error (pool c) t with
      | None => Throw NameError c
      | Some u =>
          match return_value u with
          | Some v => Next (k v) (emit who (LRead t v) c)
          | None => Throw AttributeError c
          end
      end
  | SetReturnValue t v k =>
      match nth_error (pool c) t with
      | None => Throw NameError c
      | Some u =>
          Next k (emit who (LWrite t v)
                    (put_unit t (mkUnit (kind u) (Some v) (daemon u)
                                   (status u) (finished_flag u) (body u)) c))
      end
  | EventWait t timeout deadline k =>
      match nth_error (pool c) t with
      | None => Throw NameError c
      | Some u =>
          if finished_flag u then Next k (emit who (LWaitEnd t) c)
          else
            match classify_timeout timeout with
            | Forever => Block
            | BadTimeout => Throw TypeError c
            | TooLong => Throw OverflowError c
            | Seconds d =>
                match deadline with
                | None =>
                    Next (EventWait t timeout (Some (deadline_after (now c) d)) k)
                         (emit who (LWaitBegin t) c)
                | Some dl =>
                    if Qle_bool dl (now c)
                    then Next k (emit who (LWaitEnd t) c)
                    else Block
                end
            end
      end
  | EventIsSet t k =>
      match nth_error (pool c) t with
      | None => Throw NameError c
      | Some u => Next (k (finished_flag u)) c
      end
  | EventSet t k =>
      match nth_error (pool c) t with
      | None => Throw NameError c
      | Some u =>
          Next k (emit who (LEventSet t)
                    (put_unit t (mkUnit (kind u) (return_value u) (daemon u)
                                   (status u) true (body u)) c))
      end
  end.

(** A step of the caller. A caller that has returned or died does not move,
    and neither does one blocked in [join]. *)
Definition step_caller (s : state) : option state :=
  match caller s with
  | Uncaught _ => None
  | Run p =>
      match exec Caller p (conf s) with
      | Next p' c' => Some (mkState (Run p') c')
      | Throw e c' => Some (mkState (Uncaught e) c')
      | Block => None
      | Halt _ => None
      end
  end.

Definition set_body (p : py unit) (u : bg_unit) : bg_unit :=
  mkUnit (kind u) (return_value u) (daemon u) (status u) (finished_flag u) p.

Definition set_finished (u : bg_unit) : bg_unit :=
  mkUnit (kind u) (return_value u) (daemon u) Finished (finished_flag u) (body u).

Definition update_unit (t : tid) (f : bg_unit -> bg_unit) (c : config) : config :=
  match nth_error (pool c) t with
  | Some u => put_unit t (f u) c
  | None => c
  end.

(** A step of the started unit [t]: the next operation of its run body. An
    exception that leaves [run] is reported by the runtime's excepthook and
    ends the unit; the caller does not see it. *)
Definition step_unit (t : tid) (s : state) : option state :=
  match nth_error (pool (conf s)) t with
  | None => None
  | Some u =>
      match status u with
      | Started =>
          match exec (Unit t) (body u) (conf s) with
          | Next p' c' => Some (mkState (caller s) (update_unit t (set_body p') c'))
          | Throw e c' =>
              Some (mkState (caller s)
                      (emit (Unit t) (LExcepthook e) (update_unit t set_finished c')))
          | Block => None
          | Halt _ =>
              Some (mkState (caller s)
                      (emit (Unit t) LExit (update_unit t set_finished (conf s))))
          end
      | _ => None
      end
  end.

(** Time passes. *)
Definition step_tick (dt : Q) (s : state) : option state :=
  if Qle_bool 0%Q dt
  then Some (mkState (caller s)
               (mkConfig (now (conf s) + dt)%Q (world (conf s)) (pool (conf s))
                  (log (conf s))))
  else None.

Inductive move : Type :=
| Tick (dt : Q)
| Act (a : actor).

Definition step (m : move) (s : state) : option state :=
  match m with
  | Tick dt => step_tick dt s
  | Act Caller => step_caller s
  | Act (Unit t) => step_unit t s
  end.

(** A schedule is a list of moves; it fails when a move is not enabled. *)
Fixpoint steps (ms : list move) (s : state) : option state :=
  match ms with
  | [] => Some s
  | m :: ms' =>
      match step m s with
      | Some s' => steps ms' s'
      | None => None
      end
  end.

(** The caller starts [p] at time [t0] in world [w0], with no unit alive. *)
Definition init (p : py value) (t0 : Q) (w0 : World) : state :=
  mkState (Run p) (mkConfig t0 w0 [] []).

(** What the caller got back, once its call has returned. *)
Definition returned (s : state) : option value :=
  match caller s with
  | Run (Ret v) => Some v
  | _ => None
  end.

Definition raised (s : state) : option exn :=
  match caller s with
  | Uncaught e => Some e
  | _ => None
  end.

(* ------------------------------------------------------------------ *)
(** ** The eight decorators of [sew.py] *)

Definition wrapper := args_t -> kwargs_t -> py value.

Definition thread (function : pyfun) : wrapper := fun args kwargs =>
  thread <- construct (KThread function args kwargs) ;;
  start thread ;;
  ret VNone.

Definition thread_join (function : pyfun) : wrapper := fun args kwargs =>
  thread <- construct (KThread function args kwargs) ;;
  start thread ;;
  join thread ;;
  ret VNone.

Definition thread_daemon (function : pyfun) : wrapper := fun args kwargs =>
  thread <- construct (KThread function args kwargs) ;;
  set_daemon thread true ;;
  start thread ;;
  ret VNone.

Definition thread_with_return_value (function : pyfun) : wrapper :=
  fun args kwargs =>
  thread <- construct (KFunctionThreadWithReturnValue (function, args, kwargs)) ;;
  start thread ;;
  join thread ;;
  ret VNone.

Definition delay (seconds : value) (function : pyfun) : wrapper :=
  fun args kwargs =>
  function_timer <- construct (KTimer seconds function args kwargs) ;;
  start function_timer ;;
  ret VNone.

Definition delay_join (seconds : value) (function : pyfun) : wrapper :=
  fun args kwargs =>
  function_timer <- construct (KTimer seconds function args kwargs) ;;
  start function_timer ;;
  join function_timer ;;
  ret VNone.

Definition delay_daemon (seconds : value) (function : pyfun) : wrapper :=
  fun args kwargs =>
  function_timer <- construct (KTimer seconds function args kwargs) ;;
  set_daemon function_timer true ;;
  start function_timer ;;
  ret VNone.

Definition delay_with_return_value (seconds : value) (function : pyfun)
  : wrapper := fun args kwargs =>
  function_timer <-
    construct (KDelayedFunctionWithReturnValue seconds (function, args, kwargs)) ;;
  start function_timer ;;
  join function_timer ;;
  v <- get_return_value function_timer ;;
  ret v.

End Semantics.

(** The record updates unfold under [cbn], so that a computed state is a
    plain record. *)
Arguments emit {World} who l c /.
Arguments put_unit {World} t u c /.
Arguments put_world {World} w c /.
Arguments update_unit {World} t f c /.
Arguments set_body {World} p u /.
Arguments set_finished {World} u /.
Arguments new_unit {World} current_daemon t kd /.

(* ------------------------------------------------------------------ *)
(** ** Reachable states of one decorated call: definitions *)

Section Shapes.

Context {World : Type} {rt : Runtime}.

Local Abbreviation pyfun := (pyfun World).
Local Abbreviation unit_kind := (unit_kind World).
Local Abbreviation py := (py World).
Local Abbreviation state := (@state World).
Local Abbreviation event := (@event World).
Local Abbreviation label := (@label World).

(** What is left of [Timer.run] once the wait is over. *)
Definition timer_rest (self : tid) (function : pyfun) (args : args_t)
    (kwargs : kwargs_t) : py unit :=
  is_set <- finished_is_set self ;;
  (if negb is_set then _ <- call function args kwargs ;; ret tt else ret tt) ;;
  finished_set self.

(** The capture step of the two subclasses. *)
Definition capture (self : tid) (function : pyfun) (args : args_t)
    (kwargs : kwargs_t) : py unit :=
  v <- call function args kwargs ;;
  set_return_value self v.

Local Abbreviation U l := (@pair actor label (Unit 0) l).

(** [phase t0 w0 l0 K st slot flag body w l now]: a unit of class [K] that
    was started at or after time [t0], in world [w0] and with log [l0], can be
    in lifecycle state [st] with Result Slot [slot], [finished] event [flag]
    and remaining run body [body], the world then being [w], the log [l] and
    the clock [now]. One constructor for each point of each [run] method. *)
Inductive phase (t0 : Q) (w0 : World) (l0 : list event)
  : unit_kind -> lifecycle -> option value -> bool -> py unit ->
                  World -> list event -> Q -> Prop :=
(* threading.Thread *)
| Th0 f a kw now : (t0 <= now)%Q ->
    phase t0 w0 l0 (KThread f a kw) Started None false (run 0 (KThread f a kw)) w0 l0 now
| Th1 f a kw v w1 now : (t0 <= now)%Q -> f a kw w0 = Returns v w1 ->
    phase t0 w0 l0 (KThread f a kw) Started None false (ret tt) w1
      (U (LReturned f a kw v) :: l0) now
| ThF f a kw v w1 now : (t0 <= now)%Q -> f a kw w0 = Returns v w1 ->
    phase t0 w0 l0 (KThread f a kw) Finished None false (ret tt) w1
      (U LExit :: U (LReturned f a kw v) :: l0) now
| ThE f a kw e w1 now : (t0 <= now)%Q -> f a kw w0 = Raises e w1 ->
    phase t0 w0 l0 (KThread f a kw) Finished None false (run 0 (KThread f a kw)) w1
      (U (LExcepthook e) :: U (LRaised f a kw e) :: l0) now
(* _FunctionThreadWithReturnValue *)
| Fn0 f a kw now : (t0 <= now)%Q ->
    phase t0 w0 l0 (KFunctionThreadWithReturnValue (f, a, kw)) Started (Some VNone) false
      (capture 0 f a kw) w0 l0 now
| Fn1 f a kw v w1 now : (t0 <= now)%Q -> f a kw w0 = Returns v w1 ->
    phase t0 w0 l0 (KFunctionThreadWithReturnValue (f, a, kw)) Started (Some VNone) false
      (set_return_value 0 v) w1 (U (LReturned f a kw v) :: l0) now
| Fn2 f a kw v w1 now : (t0 <= now)%Q -> f a kw w0 = Returns v w1 ->
    phase t0 w0 l0 (KFunctionThreadWithReturnValue (f, a, kw)) Started (Some v) false
      (ret tt) w1 (U (LWrite 0 v) :: U (LReturned f a kw v) :: l0) now
| FnF f a kw v w1 now : (t0 <= now)%Q -> f a kw w0 = Returns v w1 ->
    phase t0 w0 l0 (KFunctionThreadWithReturnValue (f, a, kw)) Finished (Some v) false
      (ret tt) w1
      (U LExit :: U (LWrite 0 v) :: U (LReturned f a kw v) :: l0) now
| FnE f a kw e w1 now : (t0 <= now)%Q -> f a kw w0 = Raises e w1 ->
    phase t0 w0 l0 (KFunctionThreadWithReturnValue (f, a, kw)) Finished (Some VNone) false
      (capture 0 f a kw) w1
      (U (LExcepthook e) :: U (LRaised f a kw e) :: l0) now
(* threading.Timer *)
| Ti0 i f a kw now : (t0 <= now)%Q ->
    phase t0 w0 l0 (KTimer i f a kw) Started None false (run 0 (KTimer i f a kw)) w0 l0 now
| TiBad i f a kw now : (t0 <= now)%Q -> classify_timeout i = BadTimeout ->
    phase t0 w0 l0 (KTimer i f a kw) Finished None false (run 0 (KTimer i f a kw)) w0
      (U (LExcepthook TypeError) :: l0) now
| TiLong i f a kw now : (t0 <= now)%Q -> classify_timeout i = TooLong ->
    phase t0 w0 l0 (KTimer i f a kw) Finished None false (run 0 (KTimer i f a kw)) w0
      (U (LExcepthook OverflowError) :: l0) now
| Ti1 i f a kw d dl now : (t0 <= now)%Q ->
    classify_timeout i = Seconds d -> (t0 + d <= dl)%Q ->
    phase t0 w0 l0 (KTimer i f a kw) Started None false
      (EventWait 0 i (Some dl) (timer_rest 0 f a kw)) w0
      (U (LWaitBegin 0) :: l0) now
| Ti2 i f a kw d now : (t0 <= now)%Q ->
    classify_timeout i = Seconds d -> (t0 + d <= now)%Q ->
    phase t0 w0 l0 (KTimer i f a kw) Started None false (timer_rest 0 f a kw) w0
      (U (LWaitEnd 0) :: U (LWaitBegin 0) :: l0) now
| Ti3 i f a kw d now : (t0 <= now)%Q ->
    classify_timeout i = Seconds d -> (t0 + d <= now)%Q ->
    phase t0 w0 l0 (KTimer i f a kw) Started None false
      (call f a kw ;; finished_set 0) w0
      (U (LWaitEnd 0) :: U (LWaitBegin 0) :: l0) now
| Ti4 i f a kw d v w1 now : (t0 <= now)%Q ->
    classify_timeout i = Seconds d -> (t0 + d <= now)%Q ->
    f a kw w0 = Returns v w1 ->
    phase t0 w0 l0 (KTimer i f a kw) Started None false (finished_set 0) w1
      (U (LReturned f a kw v) :: U (LWaitEnd 0) :: U (LWaitBegin 0) :: l0) now
| Ti5 i f a kw d v w1 now : (t0 <= now)%Q ->
    classify_timeout i = Seconds d -> (t0 + d <= now)%Q ->
    f a kw w0 = Returns v w1 ->
    phase t0 w0 l0 (KTimer i f a kw) Started None true (ret tt) w1
      (U (LEventSet 0) :: U (LReturned f a kw v) :: U (LWaitEnd 0)
         :: U (LWaitBegin 0) :: l0) now
| TiF i f a kw d v w1 now : (t0 <= now)%Q ->
    classify_timeout i = Seconds d -> (t0 + d <= now)%Q ->
    f a kw w0 = Returns v w1 ->
    phase t0 w0 l0 (KTimer i f a kw) Finished None true (ret tt) w1
      (U LExit :: U (LEventSet 0) :: U (LReturned f a kw v) :: U (LWaitEnd 0)
         :: U (LWaitBegin 0) :: l0) now
| TiE i f a kw d e w1 now : (t0 <= now)%Q ->
    classify_timeout i = Seconds d -> (t0 + d <= now)%Q ->
    f a kw w0 = Raises e w1 ->
    phase t0 w0 l0 (KTimer i f a kw) Finished None false
      (call f a kw ;; finished_set 0) w1
      (U (LExcepthook e) :: U (LRaised f a kw e) :: U (LWaitEnd 0)
         :: U (LWaitBegin 0) :: l0) now
(* _DelayedFunctionWithReturnValue *)
| De0 i f a kw now : (t0 <= now)%Q ->
    phase t0 w0 l0 (KDelayedFunctionWithReturnValue i (f, a, kw)) Started (Some VNone)
      false (run 0 (KDelayedFunctionWithReturnValue i (f, a, kw))) w0 l0 now
| DeBad i f a kw now : (t0 <= now)%Q -> classify_timeout i = BadTimeout ->
    phase t0 w0 l0 (KDelayedFunctionWithReturnValue i (f, a, kw)) Finished (Some VNone)
      false (run 0 (KDelayedFunctionWithReturnValue i (f, a, kw))) w0
      (U (LExcepthook TypeError) :: l0) now
| DeLong i f a kw now : (t0 <= now)%Q -> classify_timeout i = TooLong ->
    phase t0 w0 l0 (KDelayedFunctionWithReturnValue i (f, a, kw)) Finished (Some VNone)
      false (run 0 (KDelayedFunctionWithReturnValue i (f, a, kw))) w0
      (U (LExcepthook OverflowError) :: l0) now
| De1 i f a kw d dl now : (t0 <= now)%Q ->
    classify_timeout i = Seconds d -> (t0 + d <= dl)%Q ->
    phase t0 w0 l0 (KDelayedFunctionWithReturnValue i (f, a, kw)) Started (Some VNone)
      false
      (EventWait 0 i (Some dl)
         (timer_rest 0 lambda_None [] [] ;; capture 0 f a kw)) w0
      (U (LWaitBegin 0) :: l0) now
| De2 i f a kw d now : (t0 <= now)%Q ->
    classify_timeout i = Seconds d -> (t0 + d <= now)%Q ->
    phase t0 w0 l0 (KDelayedFunctionWithReturnValue i (f, a, kw)) Started (Some VNone)
      false (timer_rest 0 lambda_None [] [] ;; capture 0 f a kw) w0
      (U (LWaitEnd 0) :: U (LWaitBegin 0) :: l0) now
| De3 i f a kw d now : (t0 <= now)%Q ->
    classify_timeout i = Seconds d -> (t0 + d <= now)%Q ->
    phase t0 w0 l0 (KDelayedFunctionWithReturnValue i (f, a, kw)) Started (Some VNone)
      false
      ((call lambda_None [] [] ;; finished_set 0) ;; capture 0 f a kw) w0
      (U (LWaitEnd 0) :: U (LWaitBegin 0) :: l0) now
| De4 i f a kw d now : (t0 <= now)%Q ->
    classify_timeout i = Seconds d -> (t0 + d <= now)%Q ->
    phase t0 w0 l0 (KDelayedFunctionWithReturnValue i (f, a, kw)) Started (Some VNone)
      false (finished_set 0 ;; capture 0 f a kw) w0
      (U (LReturned lambda_None [] [] VNone) :: U (LWaitEnd 0)
         :: U (LWaitBegin 0) :: l0) now
| De5 i f a kw d now : (t0 <= now)%Q ->
    classify_timeout i = Seconds d -> (t0 + d <= now)%Q ->
    phase t0 w0 l0 (KDelayedFunctionWithReturnValue i (f, a, kw)) Started (Some VNone)
      true (capture 0 f a kw) w0
      (U (LEventSet 0) :: U (LReturned lambda_None [] [] VNone)
         :: U (LWaitEnd 0) :: U (LWaitBegin 0) :: l0) now
| De6 i f a kw d v w1 now : (t0 <= now)%Q ->
    classify_timeout i = Seconds d -> (t0 + d <= now)%Q ->
    f a kw w0 = Returns v w1 ->
    phase t0 w0 l0 (KDelayedFunctionWithReturnValue i (f, a, kw)) Started (Some VNone)
      true (set_return_value 0 v) w1
      (U (LReturned f a kw v) :: U (LEventSet 0)
         :: U (LReturned lambda_None [] [] VNone)
         :: U (LWaitEnd 0) :: U (LWaitBegin 0) :: l0) now
| De7 i f a kw d v w1 now : (t0 <= now)%Q ->
    classify_timeout i = Seconds d -> (t0 + d <= now)%Q ->
    f a kw w0 = Returns v w1 ->
    phase t0 w0 l0 (KDelayedFunctionWithReturnValue i (f, a, kw)) Started (Some v)
      true (ret tt) w1
      (U (LWrite 0 v) :: U (LReturned f a kw v) :: U (LEventSet 0)
         :: U (LReturned lambda_None [] [] VNone)
         :: U (LWaitEnd 0) :: U (LWaitBegin 0) :: l0) now
| DeF i f a kw d v w1 now : (t0 <= now)%Q ->
    classify_timeout i = Seconds d -> (t0 + d <= now)%Q ->
    f a kw w0 = Returns v w1 ->
    phase t0 w0 l0 (KDelayedFunctionWithReturnValue i (f, a, kw)) Finished (Some v)
      true (ret tt) w1
      (U LExit :: U (LWrite 0 v) :: U (LReturned f a kw v) :: U (LEventSet 0)
         :: U (LReturned lambda_None [] [] VNone)
         :: U (LWaitEnd 0) :: U (LWaitBegin 0) :: l0) now
| DeE i f a kw d e w1 now : (t0 <= now)%Q ->
    classify_timeout i = Seconds d -> (t0 + d <= now)%Q ->
    f a kw w0 = Raises e w1 ->
    phase t0 w0 l0 (KDelayedFunctionWithReturnValue i (f, a, kw)) Finished (Some VNone)
      true (capture 0 f a kw) w1
      (U (LExcepthook e) :: U (LRaised f a kw e) :: U (LEventSet 0)
         :: U (LReturned lambda_None [] [] VNone)
         :: U (LWaitEnd 0) :: U (LWaitBegin 0) :: l0) now.

(** The four shapes of caller code in the eight decorators. *)
Inductive mode : Type := Forget | Daemon | Joined | Capture.

Definition is_daemon (m : mode) : bool :=
  match m with Daemon => true | _ => false end.

(** The [daemon] attribute of the unit once the caller is past [start]:
    [True] where the decorator set it, and otherwise what the constructor
    took from the calling thread. *)
Definition unit_daemon (m : mode) : bool := is_daemon m || caller_daemon.

Definition after_join (m : mode) (t : tid) : py value :=
  match m with
  | Capture => v <- get_return_value t ;; ret v
  | _ => ret VNone
  end.

Definition after_start (m : mode) (t : tid) : py value :=
  match m with
  | Forget | Daemon => ret VNone
  | Joined | Capture => join t ;; after_join m t
  end.

Definition after_new (m : mode) (t : tid) : py value :=
  (if is_daemon m then set_daemon t true else ret tt) ;;
  start t ;;
  after_start m t.

Definition skeleton (m : mode) (K : unit_kind) : py value :=
  t <- construct K ;; after_new m t.

Definition start_log (m : mode) (K : unit_kind) : list event :=
  (Caller, LStart 0)
    :: (if is_daemon m then [(Caller, LSetDaemon 0 true)] else [])
    ++ [(Caller, LNew 0 K)].

Inductive sew_inv (m : mode) (K : unit_kind) (t0 : Q) (w0 : World)
  : state -> Prop :=
| I_init now : (t0 <= now)%Q ->
    sew_inv m K t0 w0 (mkState (Run (skeleton m K)) (mkConfig now w0 [] []))
| I_new now : (t0 <= now)%Q ->
    sew_inv m K t0 w0 (mkState (Run (after_new m 0))
               (mkConfig now w0 [new_unit caller_daemon 0 K]
                  [(Caller, LNew 0 K)]))
| I_daemon now : (t0 <= now)%Q -> m = Daemon ->
    sew_inv m K t0 w0 (mkState (Run (start 0 ;; after_start m 0))
               (mkConfig now w0
                  [mkUnit K (initial_slot K) true Created false (run 0 K)]
                  [(Caller, LSetDaemon 0 true); (Caller, LNew 0 K)]))
| I_started now st slot flag body w l :
    phase t0 w0 (start_log m K) K st slot flag body w l now ->
    sew_inv m K t0 w0 (mkState (Run (after_start m 0))
               (mkConfig now w [mkUnit K slot (unit_daemon m) st flag body] l))
| I_joined now slot flag body w l :
    phase t0 w0 (start_log m K) K Finished slot flag body w l now ->
    m = Joined \/ m = Capture ->
    sew_inv m K t0 w0 (mkState (Run (after_join m 0))
               (mkConfig now w [mkUnit K slot (unit_daemon m) Finished flag body]
                  ((Caller, LJoin 0) :: l)))
| I_read now v flag body w l :
    phase t0 w0 (start_log m K) K Finished (Some v) flag body w l now ->
    m = Capture ->
    sew_inv m K t0 w0 (mkState (Run (Ret v))
               (mkConfig now w
                  [mkUnit K (Some v) (unit_daemon m) Finished flag body]
                  ((Caller, LRead 0 v) :: (Caller, LJoin 0) :: l)))
| I_noattr now flag body w l :
    phase t0 w0 (start_log m K) K Finished None flag body w l now ->
    m = Capture ->
    sew_inv m K t0 w0 (mkState (Uncaught AttributeError)
               (mkConfig now w
                  [mkUnit K None (unit_daemon m) Finished flag body]
                  ((Caller, LJoin 0) :: l))).


End Shapes.

(* ------------------------------------------------------------------ *)
(** ** Observations on states and logs *)

Section Observations.

Context {World : Type} {rt : Runtime}.

Local Abbreviation state := (@state World).
Local Abbreviation event := (@event World).
Local Abbreviation label := (@label World).

(** The unit a decorated call creates is the first of the pool. *)
Definition unit0 (s : state) : option bg_unit := nth_error (pool (conf s)) 0.

(** What one actor did, oldest first. *)
Definition history (a : actor) (s : state) : list label :=
  rev (map snd (filter (fun e => actor_eqb (fst e) a) (log (conf s)))).

(** The labels a run body can produce. *)
Definition unit_label (l : label) : bool :=
  match l with
  | LWrite _ _ | LReturned _ _ _ _ | LRaised _ _ _ _ | LWaitBegin _
  | LWaitEnd _ | LEventSet _ | LExcepthook _ | LExit => true
  | _ => false
  end.

Definition unit_event (e : event) : bool :=
  actor_eqb (fst e) (Unit 0) && unit_label (snd e).

(** [extends l0 l]: [l] is [l0] with events of unit [0] put in front. *)
Inductive extends (l0 : list event) : list event -> Prop :=
| extends_refl : extends l0 l0
| extends_cons e l : unit_event e = true -> extends l0 l -> extends l0 (e :: l).

Definition is_write (t : tid) (e : event) : bool :=
  match snd e with
  | LWrite t' _ => Nat.eqb t t'
  | _ => false
  end.

(** How many times the Result Slot of unit [t] was assigned after [__init__]. *)
Definition writes (t : tid) (l : list event) : nat :=
  List.length (filter (is_write t) l).

End Observations.

(* ------------------------------------------------------------------ *)
(** ** Schedules and traces used in the statements *)

(** Schedules on which a joined call returns: the unit runs to its end while
    the caller waits in [join]. The timer ones let [nap d] seconds pass. *)
Definition thread_schedule : list move :=
  [Act Caller; Act Caller; Act (Unit 0); Act (Unit 0); Act Caller].

Definition twrv_schedule : list move :=
  [Act Caller; Act Caller; Act (Unit 0); Act (Unit 0); Act (Unit 0); Act Caller].

Definition raising_schedule : list move :=
  [Act Caller; Act Caller; Act (Unit 0); Act Caller].

Definition timer_schedule (d : Q) : list move :=
  [Act Caller; Act Caller; Act (Unit 0); Tick (nap d); Act (Unit 0);
   Act (Unit 0); Act (Unit 0); Act (Unit 0); Act (Unit 0); Act Caller].

Definition timer_raising_schedule (d : Q) : list move :=
  [Act Caller; Act Caller; Act (Unit 0); Tick (nap d); Act (Unit 0);
   Act (Unit 0); Act (Unit 0); Act Caller].

Definition delayed_schedule (d : Q) : list move :=
  [Act Caller; Act Caller; Act (Unit 0); Tick (nap d); Act (Unit 0);
   Act (Unit 0); Act (Unit 0); Act (Unit 0); Act (Unit 0); Act (Unit 0);
   Act (Unit 0); Act Caller; Act Caller].

Definition delayed_raising_schedule (d : Q) : list move :=
  [Act Caller; Act Caller; Act (Unit 0); Tick (nap d); Act (Unit 0);
   Act (Unit 0); Act (Unit 0); Act (Unit 0); Act (Unit 0);
   Act Caller; Act Caller].

(** The caller alone, up to its return, for the decorators that do not join. *)
Definition caller_schedule (m : mode) : list move :=
  if is_daemon m then [Act Caller; Act Caller; Act Caller]
  else [Act Caller; Act Caller].

Section Traces.

Context {World : Type} {rt : Runtime}.

Local Abbreviation pyfun := (pyfun World).
Local Abbreviation label := (@label World).

(** What [Timer.run] does to fire [function], oldest first. *)
Definition timer_trace (function : pyfun) (args : args_t) (kwargs : kwargs_t)
    (v : value) : list label :=
  [LWaitBegin 0; LWaitEnd 0; LReturned function args kwargs v; LEventSet 0].

(** What [_DelayedFunctionWithReturnValue.run] does when the target returns
    [v]. *)
Definition delayed_trace (f : pyfun) (args : args_t) (kwargs : kwargs_t)
    (v : value) : list label :=
  timer_trace lambda_None [] [] VNone
    ++ [LReturned f args kwargs v; LWrite 0 v; LExit].

End Traces.

(* ------------------------------------------------------------------ *)
(** ** Concrete targets and runtimes *)

(** CPython on a 64-bit POSIX platform, where a timeout is accepted up to
    [9223372036854775] microseconds and [threading.TIMEOUT_MAX] is
    [9223372036.0]: with the calls made from the main thread, and with the
    calls made from a daemon thread. *)
Definition posix_main : Runtime :=
  {| TIMEOUT_MAX := 9223372036854775 # 1000000; caller_daemon := false |}.

Definition posix_daemon : Runtime :=
  {| TIMEOUT_MAX := 9223372036854775 # 1000000; caller_daemon := true |}.

(** [square(x) = x * x], on a world with no state. *)
Definition square : pyfun unit := fun args _ w =>
  match args with
  | [VInt x] => Returns (VInt (x * x)) w
  | _ => Raises TypeError w
  end.

(** A target that raises unconditionally. *)
Definition faulty : pyfun unit := fun _ _ w => Raises "Exception"%string w.

(** A target whose side effect is the increment of a shared counter. *)
Definition bump : pyfun Z := fun _ _ w => Returns VNone (w + 1)%Z.

(* ------------------------------------------------------------------ *)
(** ** Callers that use the library, and the slot discipline *)

Section Discipline.

Context {World : Type} {rt : Runtime}.

Local Abbreviation pyfun := (pyfun World).
Local Abbreviation unit_kind := (unit_kind World).
Local Abbreviation py := (py World).
Local Abbreviation call_descriptor := (call_descriptor World).
Local Abbreviation state := (@state World).
Local Abbreviation event := (@event World).
Local Abbreviation label := (@label World).

(** The eight entry points of [__all__]. *)
Inductive entry : Type :=
| E_thread
| E_thread_join
| E_thread_daemon
| E_thread_with_return_value
| E_delay (seconds : value)
| E_delay_join (seconds : value)
| E_delay_daemon (seconds : value)
| E_delay_with_return_value (seconds : value).

Definition decorate (e : entry) : pyfun -> wrapper :=
  match e with
  | E_thread => thread
  | E_thread_join => thread_join
  | E_thread_daemon => thread_daemon
  | E_thread_with_return_value => thread_with_return_value
  | E_delay seconds => delay seconds
  | E_delay_join seconds => delay_join seconds
  | E_delay_daemon seconds => delay_daemon seconds
  | E_delay_with_return_value seconds => delay_with_return_value seconds
  end.

(** One call of a decorated function. *)
Record invocation : Type := mkInvocation {
  via : entry;
  target : pyfun;
  positional : args_t;
  keywords : kwargs_t
}.

(** A caller that makes the calls one after the other. *)
Fixpoint client (calls : list invocation) : py value :=
  match calls with
  | [] => ret VNone
  | c :: rest =>
      _ <- decorate (via c) (target c) (positional c) (keywords c) ;;
      client rest
  end.

(** The Call Descriptor a unit was built with. *)
Definition descriptor (K : unit_kind) : call_descriptor :=
  match K with
  | KThread target args kwargs => (target, args, kwargs)
  | KTimer _ function args kwargs => (function, args, kwargs)
  | KFunctionThreadWithReturnValue c => c
  | KDelayedFunctionWithReturnValue _ c => c
  end.

(** The classes of the source, whose units own a Result Slot. *)
Definition capturing (K : unit_kind) : bool :=
  match K with
  | KFunctionThreadWithReturnValue _ => true
  | KDelayedFunctionWithReturnValue _ _ => true
  | _ => false
  end.

(** Caller code that builds, configures, starts, joins and reads units, and
    does nothing else. *)
Inductive client_code {A : Type} : py A -> Prop :=
| cc_ret a : client_code (Ret a)
| cc_new K k : (forall t, client_code (k t)) -> client_code (New K k)
| cc_set_daemon t b k : client_code k -> client_code (SetDaemon t b k)
| cc_start t k : client_code k -> client_code (Start t k)
| cc_join t k : client_code k -> client_code (Join t k)
| cc_get t k : (forall v, client_code (k v)) -> client_code (GetReturnValue t k).

(** [run_code self cd last may p]: in the rest [p] of the run body of unit
    [self], built with descriptor [cd], the only assignment to a Result Slot
    is to the unit's own, of the value [v] that the descriptor's target has
    just returned ([last = Some v]), and there is one only if [may]. *)
Inductive run_code (self : tid) (cd : call_descriptor)
  : option value -> bool -> py unit -> Prop :=
| rc_ret last may : run_code self cd last may (Ret tt)
| rc_target f args kwargs k last may :
    cd = (f, args, kwargs) ->
    (forall v, run_code self cd (Some v) may (k v)) ->
    run_code self cd last may (Invoke f args kwargs k)
| rc_other f args kwargs k last may :
    (forall v, run_code self cd None may (k v)) ->
    run_code self cd last may (Invoke f args kwargs k)
| rc_write v k :
    run_code self cd (Some v) false k ->
    run_code self cd (Some v) true (SetReturnValue self v k)
| rc_wait t timeout deadline k last may :
    run_code self cd last may k ->
    run_code self cd last may (EventWait t timeout deadline k)
| rc_is_set t k last may :
    (forall b, run_code self cd last may (k b)) ->
    run_code self cd last may (EventIsSet t k)
| rc_set t k last may :
    run_code self cd last may k ->
    run_code self cd last may (EventSet t k).

(** Every assignment in the log was made by the unit that owns the slot,
    after the target of its descriptor returned the assigned value. *)
Inductive justified (pool : list bg_unit) : list event -> Prop :=
| j_nil : justified pool []
| j_other e l :
    (forall t v, snd e <> LWrite t v) ->
    justified pool l -> justified pool (e :: l)
| j_write t v l u f args kwargs :
    nth_error pool t = Some u ->
    descriptor (kind u) = (f, args, kwargs) ->
    In (Unit t, LReturned f args kwargs v) l ->
    justified pool l ->
    justified pool ((Unit t, LWrite t v) :: l).

(** The state of one unit with respect to its slot. *)
Definition unit_inv_parts (l : list event) (t : tid) (u : bg_unit)
    (last : option value) (may : bool) : Prop :=
  (forall v f args kwargs,
      last = Some v -> descriptor (kind u) = (f, args, kwargs) ->
      In (Unit t, LReturned f args kwargs v) l)
  /\ (may = true ->
      writes t l = 0%nat /\ return_value u = initial_slot (kind u))
  /\ (may = false ->
      writes t l = 1%nat
      /\ exists v, return_value u = Some v /\ In (Unit t, LWrite t v) l).

Definition unit_inv (l : list event) (t : tid) (u : bg_unit) : Prop :=
  exists last may,
    run_code t (descriptor (kind u)) last may (body u)
    /\ unit_inv_parts l t u last may.

(** The discipline of a pool and a log. *)
Definition pool_inv (pool : list bg_unit) (l : list event) : Prop :=
  justified pool l
  /\ (forall t u, nth_error pool t = Some u -> unit_inv l t u).

Definition conf_inv (c : config) : Prop := pool_inv (pool c) (log c).

(** [pool'] has the units of [pool], of the same classes. *)
Definition same_kinds (pool pool' : list (@bg_unit World)) : Prop :=
  forall t u, nth_error pool t = Some u ->
    exists u', nth_error pool' t = Some u' /\ kind u' = kind u.

Definition caller_inv (cs : caller_state) : Prop :=
  match cs with
  | Run p => client_code p
  | Uncaught _ => True
  end.

End Discipline.

(* ------------------------------------------------------------------ *)
(** ** The entry points, by what they do *)

Section Entries.

Context {World : Type} {rt : Runtime}.

Local Abbreviation pyfun := (pyfun World).
Local Abbreviation unit_kind := (unit_kind World).
Local Abbreviation event := (@event World).

(** The shape of the caller code of each entry point. *)
Definition mode_of (e : entry) : mode :=
  match e with
  | E_thread | E_delay _ => Forget
  | E_thread_daemon | E_delay_daemon _ => Daemon
  | E_thread_join | E_thread_with_return_value | E_delay_join _ => Joined
  | E_delay_with_return_value _ => Capture
  end.

(** The unit each entry point constructs. *)
Definition kind_of (e : entry) (function : pyfun) (args : args_t)
    (kwargs : kwargs_t) : unit_kind :=
  match e with
  | E_thread | E_thread_join | E_thread_daemon => KThread function args kwargs
  | E_thread_with_return_value =>
      KFunctionThreadWithReturnValue (function, args, kwargs)
  | E_delay seconds | E_delay_join seconds | E_delay_daemon seconds =>
      KTimer seconds function args kwargs
  | E_delay_with_return_value seconds =>
      KDelayedFunctionWithReturnValue seconds (function, args, kwargs)
  end.

(** The delay an entry point was given, for the four delayed ones. *)
Definition seconds_of (e : entry) : option value :=
  match e with
  | E_delay seconds | E_delay_join seconds | E_delay_daemon seconds
  | E_delay_with_return_value seconds => Some seconds
  | _ => None
  end.

(** The entry points whose wrapper joins its unit. *)
Definition joins (e : entry) : bool :=
  match mode_of e with
  | Joined | Capture => true
  | _ => false
  end.

(** An event that records a call of a function by a unit. *)
Definition is_call (e : event) : bool :=
  match snd e with
  | LReturned _ _ _ _ | LRaised _ _ _ _ => true
  | _ => false
  end.

(** An event of the caller's own operations. *)
Definition caller_made (e : event) : Prop :=
  fst e = Caller /\ is_call e = false.

(** How many calls of functions the log records. *)
Definition calls_in (l : list event) : nat := List.length (filter is_call l).

(** A target that never returns. *)
Definition forever : pyfun := fun _ _ _ => Diverges.

End Entries.

(** The unit's moves of a timer whose wait is over at once. *)
Definition no_tick (mv : move) : bool :=
  match mv with
  | Tick _ => false
  | Act _ => true
  end.

Definition timer_schedule_at_once : list move :=
  [Act Caller; Act Caller; Act (Unit 0); Act (Unit 0);
   Act (Unit 0); Act (Unit 0); Act (Unit 0); Act (Unit 0); Act Caller].

Definition delayed_schedule_at_once : list move :=
  [Act Caller; Act Caller; Act (Unit 0); Act (Unit 0);
   Act (Unit 0); Act (Unit 0); Act (Unit 0); Act (Unit 0); Act (Unit 0);
   Act (Unit 0); Act Caller; Act Caller].

(** What is left for the unit to do once a caller that does not join has
    returned. *)
Definition thread_unit_schedule : list move := [Act (Unit 0); Act (Unit 0)].

Definition timer_unit_schedule (d : Q) : list move :=
  [Act (Unit 0); Tick (nap d); Act (Unit 0); Act (Unit 0); Act (Unit 0);
   Act (Unit 0); Act (Unit 0)].

(** A timer whose timeout is not a number, or is too large, fails in its
    first move; the caller then goes on to its return. *)
Definition bad_timeout_schedule (m : mode) : list move :=
  match m with
  | Forget => [Act Caller; Act Caller]
  | Daemon => [Act Caller; Act Caller; Act Caller]
  | Joined => [Act Caller; Act Caller; Act (Unit 0); Act Caller]
  | Capture => [Act Caller; Act Caller; Act (Unit 0); Act Caller; Act Caller]
  end.

(* ------------------------------------------------------------------ *)
(** ** Where a caller of several decorated calls stands *)

Section Stages.

Context {World : Type} {rt : Runtime}.

Local Abbreviation py := (py World).

(** [pool'] has the units of [pool]; none went back to [Created], none left
    it without being started by the caller, none lost its Result Slot. *)
Definition evolves (pool pool' : list (@bg_unit World)) : Prop :=
  forall t u, nth_error pool t = Some u ->
    exists u', nth_error pool' t = Some u'
      /\ (status u = Created <-> status u' = Created)
      /\ (return_value u <> None -> return_value u' <> None).

(** The classes of the units of a pool, in order. *)
Definition kinds (pool : list (@bg_unit World)) : list (unit_kind World) :=
  map (@kind World) pool.

(** The unit each call of a list will build. *)
Definition planned (calls : list (@invocation World))
  : list (unit_kind World) :=
  map (fun c => kind_of (via c) (target c) (positional c) (keywords c)) calls.

(** The caller of [client], with the calls [rest] still to make, is between
    two calls, or inside one: it has built the unit and not started it, or it
    waits in [join], or it is about to read the Result Slot; the unit is then
    in the state the next operation needs. *)
Inductive caller_stage (pool : list (@bg_unit World))
  : list (@invocation World) -> @caller_state World -> Prop :=
| stage_idle rest :
    caller_stage pool rest (Run (client rest))
| stage_built m t u rest :
    nth_error pool t = Some u -> status u = Created ->
    (m = Capture -> return_value u <> None) ->
    caller_stage pool rest (Run (_ <- after_new m t ;; client rest))
| stage_daemon t u rest :
    nth_error pool t = Some u -> status u = Created ->
    caller_stage pool rest
      (Run (_ <- (start t ;; after_start Daemon t) ;; client rest))
| stage_joining m t u rest :
    m = Joined \/ m = Capture ->
    nth_error pool t = Some u -> status u <> Created ->
    (m = Capture -> return_value u <> None) ->
    caller_stage pool rest (Run (_ <- after_start m t ;; client rest))
| stage_reading t u rest :
    nth_error pool t = Some u -> return_value u <> None ->
    caller_stage pool rest (Run (_ <- after_join Capture t ;; client rest)).

(** The units built so far and the calls still to make account for the
    calls of the client, in order. *)
Definition on_plan (calls : list (@invocation World)) (s : @state World)
  : Prop :=
  exists rest,
    caller_stage (pool (conf s)) rest (caller s)
    /\ kinds (pool (conf s)) ++ planned rest = planned calls.

End Stages.

Arguments kinds {World} pool : simpl never.
Arguments planned {World} calls : simpl never.

(** Two calls in a row, a [thread] of a raising target and a delayed capture
    of [square], and a schedule on which the first unit runs while the
    caller waits for the second. *)
Definition two_calls : list (@invocation unit) :=
  [mkInvocation E_thread faulty [] [];
   mkInvocation (E_delay_with_return_value (VFloat (1 # 5))) square [VInt 7] []].

Definition two_calls_schedule : list move :=
  [Act Caller; Act Caller; Act Caller; Act Caller;
   Act (Unit 1); Tick (1 # 5); Act (Unit 1); Act (Unit 1); Act (Unit 1);
   Act (Unit 0);
   Act (Unit 1); Act (Unit 1); Act (Unit 1); Act (Unit 1);
   Act Caller; Act Caller].
(* ------------------------------------------------------------------ *)
(** ** Proof tools *)

Lemma nap_nonneg (d : Q) : (0 <= nap d)%Q.
Proof.
  unfold nap. destruct (Qle_bool d 0) eqn:E; [lra|].
  destruct (Qlt_le_dec 0 d) as [H|H]; [lra|].
  apply Qle_bool_iff in H. congruence.
Qed.

Lemma nap_ge (d : Q) : (d <= nap d)%Q.
Proof.
  unfold nap. destruct (Qle_bool d 0) eqn:E; [|lra].
  now apply Qle_bool_iff in E.
Qed.

Lemma deadline_after_ge (t0 now d : Q) :
  (t0 <= now)%Q -> (t0 + d <= deadline_after now d)%Q.
Proof.
  intros H. unfold deadline_after. pose proof (nap_ge d). lra.
Qed.

Lemma tick_nap_enabled (d : Q) : Qle_bool 0 (nap d) = true.
Proof. apply Qle_bool_iff, nap_nonneg. Qed.

Lemma deadline_reached (now d : Q) :
  Qle_bool (deadline_after now d) (now + nap d) = true.
Proof. apply Qle_bool_iff. unfold deadline_after. lra. Qed.

Section Timeouts.

Context {rt : Runtime}.

(** A number that is not above [TIMEOUT_MAX] is waited for. *)
Lemma classify_number (seconds : value) (d : Q) :
  number_of seconds = Some d -> (d <= TIMEOUT_MAX)%Q ->
  classify_timeout seconds = Seconds d.
Proof.
  intros Hn Hd.
  assert (E : timed_acquire d = Seconds d).
  { unfold timed_acquire. destruct (Qle_bool d 0); [reflexivity|].
    apply Qle_bool_iff in Hd. rewrite Hd. reflexivity. }
  destruct seconds; cbn in *; try discriminate; inversion Hn; subst;
    exact E.
Qed.

(** A positive number above [TIMEOUT_MAX] overflows. *)
Lemma classify_overflow (seconds : value) (d : Q) :
  number_of seconds = Some d -> (0 < d)%Q -> (TIMEOUT_MAX < d)%Q ->
  classify_timeout seconds = TooLong.
Proof.
  intros Hn H0 Hd.
  assert (E : timed_acquire d = TooLong).
  { unfold timed_acquire.
    destruct (Qle_bool d 0) eqn:E0; [apply Qle_bool_iff in E0; lra|].
    destruct (Qle_bool d TIMEOUT_MAX) eqn:E1;
      [apply Qle_bool_iff in E1; lra|reflexivity]. }
  destruct seconds; cbn in *; try discriminate; inversion Hn; subst;
    exact E.
Qed.

(** What [wait] does with a timeout is decided by the number it is. *)
Lemma classify_seconds (seconds : value) (d : Q) :
  classify_timeout seconds = Seconds d ->
  number_of seconds = Some d /\ ((d <= 0)%Q \/ (d <= TIMEOUT_MAX)%Q).
Proof.
  assert (E : forall q, timed_acquire q = Seconds d ->
                Some q = Some d /\ ((d <= 0)%Q \/ (d <= TIMEOUT_MAX)%Q)).
  { intros q. unfold timed_acquire.
    destruct (Qle_bool q 0) eqn:E0.
    - intros H; inversion H; subst. apply Qle_bool_iff in E0. auto.
    - destruct (Qle_bool q TIMEOUT_MAX) eqn:E1; [|discriminate].
      intros H; inversion H; subst. apply Qle_bool_iff in E1. auto. }
  destruct seconds; cbn; try discriminate; apply E.
Qed.

End Timeouts.

Ltac q_hyps :=
  repeat match goal with
  | H : Qle_bool _ _ = true |- _ => apply Qle_bool_iff in H
  end.

Ltac split_match H :=
  match type of H with
  | context [match ?x with _ => _ end] =>
      lazymatch x with
      | context [match _ with _ => _ end] => fail
      | _ =>
          match goal with
          | E : x = _ |- _ => rewrite E in H
          | _ => destruct x eqn:?
          end
      end
  end.

Ltac run_step H :=
  unfold step, step_tick, step_caller, step_unit in H; cbn in H;
  repeat (first [ discriminate H | split_match H; cbn in H ]);
  q_hyps; inversion H; subst; clear H.

Ltac norm :=
  unfold emit, put_unit, put_world, update_unit, set_body, set_finished,
    new_unit; cbn.

Ltac shape c :=
  match goal with
  | |- @sew_inv ?W ?R ?m ?K ?t0 ?w0 _ => eapply (c W R m K t0 w0)
  end.

Ltac side :=
  eauto; try (apply deadline_after_ge; assumption); try lra.


(* ------------------------------------------------------------------ *)
(** ** Reachable states of one decorated call: preservation *)

Section Reach.

Context {World : Type} {rt : Runtime}.

Local Abbreviation pyfun := (pyfun World).
Local Abbreviation unit_kind := (unit_kind World).
Local Abbreviation py := (py World).
Local Abbreviation state := (@state World).
Local Abbreviation event := (@event World).

Lemma steps_cons m ms (s s' : state) r :
  step m s = Some s' -> steps ms s' = r -> steps (m :: ms) s = r.
Proof. intros H1 H2. simpl. rewrite H1. exact H2. Qed.

Lemma steps_invariant (I : state -> Prop) :
  (forall m s s', I s -> step m s = Some s' -> I s') ->
  forall ms s s', I s -> steps ms s = Some s' -> I s'.
Proof.
  intros Hpres ms; induction ms as [|m ms IH]; intros s s' Hs Hrun; simpl in Hrun.
  - now inversion Hrun; subst.
  - destruct (step m s) as [s1|] eqn:E; [|discriminate].
    eapply IH; [eapply Hpres; eassumption | exact Hrun].
Qed.


Section Phases.
Variables (t0 : Q) (w0 : World) (l0 : list event).

Lemma phase_tick K st slot flag body w l now now' :
  phase t0 w0 l0 K st slot flag body w l now -> (now <= now')%Q ->
  phase t0 w0 l0 K st slot flag body w l now'.
Proof. intros HP Hle; destruct HP; econstructor; eauto; lra. Qed.

Lemma phase_not_created K slot flag body w l now :
  ~ phase t0 w0 l0 K Created slot flag body w l now.
Proof. intros HP; inversion HP. Qed.

Lemma phase_step K st slot flag body w l now c d s' :
  phase t0 w0 l0 K st slot flag body w l now ->
  step_unit 0 (mkState c (mkConfig now w [mkUnit K slot d st flag body] l))
  = Some s' ->
  exists st' slot' flag' body' w' l',
    s' = mkState c (mkConfig now w' [mkUnit K slot' d st' flag' body'] l')
    /\ phase t0 w0 l0 K st' slot' flag' body' w' l' now.
Proof.
  intros HP Hs; destruct HP; run_step Hs.
  all: do 6 eexists; (split; [reflexivity|]); cbn.
  all: try (econstructor; side; fail).
Qed.



Lemma phase_start K now :
  (t0 <= now)%Q -> phase t0 w0 l0 K Started (initial_slot K) false (run 0 K) w0 l0 now.
Proof.
  intros H; destruct K as [f a kw | i f a kw | [[f a] kw] | i [[f a] kw]];
    constructor; assumption.
Qed.

End Phases.

Lemma sew_inv_step m (K : unit_kind) t0 (w0 : World) mv s s' :
  sew_inv m K t0 w0 s -> step mv s = Some s' -> sew_inv m K t0 w0 s'.
Proof.
  intros HI Hs. destruct mv as [dt | [ | t]].
  - unfold step, step_tick in Hs.
    destruct (Qle_bool 0 dt) eqn:E; [|discriminate].
    apply Qle_bool_iff in E. inversion Hs; subst; clear Hs.
    destruct HI; cbn; econstructor; eauto;
      try (eapply phase_tick; [eassumption|]); lra.
  - destruct HI.
    + run_step Hs. constructor; assumption.
    + destruct m; run_step Hs; norm.
      all: first [ shape @I_daemon; trivial
                 | shape @I_started; apply phase_start; assumption ].
    + subst m. run_step Hs; norm.
      shape @I_started; apply phase_start; assumption.
    + destruct m; destruct st;
        try (exfalso; eapply phase_not_created; eassumption);
        run_step Hs; norm.
      all: shape @I_joined; auto.
    + destruct H0; subst m; [discriminate|].
      destruct slot as [v|]; run_step Hs; norm.
      * shape @I_read; auto.
      * shape @I_noattr; auto.
    + discriminate.
    + discriminate.
  - destruct t as [|t].
    + destruct HI; try (run_step Hs; fail).
      destruct (phase_step _ _ H Hs)
        as (st' & slot' & flag' & body' & w' & l' & -> & HP).
      shape @I_started; assumption.
    + destruct HI; unfold step, step_unit in Hs; cbn in Hs; destruct t;
        discriminate.
Qed.

Lemma sew_reach m (K : unit_kind) t0 (w0 : World) ms s :
  steps ms (init (skeleton m K) t0 w0) = Some s -> sew_inv m K t0 w0 s.
Proof.
  apply steps_invariant.
  - intros mv s1 s2. apply sew_inv_step.
  - constructor. lra.
Qed.

End Reach.

Section Facts.

Context {World : Type} {rt : Runtime}.

Local Abbreviation pyfun := (pyfun World).
Local Abbreviation unit_kind := (unit_kind World).
Local Abbreviation py := (py World).
Local Abbreviation state := (@state World).
Local Abbreviation event := (@event World).

Lemma extends_in (l0 l : list event) e :
  extends l0 l -> In e l -> unit_event e = true \/ In e l0.
Proof.
  induction 1 as [|e' l Hu Hext IH]; intros Hin; [now right|].
  destruct Hin as [<-|Hin]; [now left | now apply IH].
Qed.

Lemma phase_extends t0 (w0 : World) l0 K st slot flag body w l now :
  phase t0 w0 l0 K st slot flag body w l now -> extends l0 l.
Proof. intros HP; destruct HP; repeat constructor. Qed.

Lemma phase_slot t0 (w0 : World) l0 K st slot flag body w l now :
  phase t0 w0 l0 K st slot flag body w l now ->
  slot = None -> initial_slot K = None.
Proof. intros HP; destruct HP; cbn; congruence. Qed.

(** Every event of a decorated call is an event of its unit or one of the
    caller's operations, in the shape the decorator has. *)
Lemma sew_inv_events m (K : unit_kind) t0 (w0 : World) s e :
  sew_inv m K t0 w0 s -> In e (log (conf s)) ->
  unit_event e = true
  \/ e = (Caller, LNew 0 K)
  \/ e = (Caller, LStart 0)
  \/ (m = Daemon /\ e = (Caller, LSetDaemon 0 true))
  \/ ((m = Joined \/ m = Capture) /\ e = (Caller, LJoin 0))
  \/ (m = Capture /\ exists v, e = (Caller, LRead 0 v)).
Proof.
  assert (Hstart : forall l, extends (start_log m K) l -> In e l ->
            unit_event e = true \/ e = (Caller, LNew 0 K)
            \/ e = (Caller, LStart 0)
            \/ (m = Daemon /\ e = (Caller, LSetDaemon 0 true))).
  { intros l Hext Hin. destruct (extends_in e Hext Hin) as [?|Hin0]; [now left|].
    right. unfold start_log in Hin0. destruct m; cbn in Hin0; intuition. }
  intros HI Hin; destruct HI; cbn in Hin.
  - contradiction.
  - intuition.
  - intuition.
  - apply phase_extends in H. specialize (Hstart _ H Hin). intuition.
  - apply phase_extends in H. destruct Hin as [<-|Hin]; [intuition|].
    specialize (Hstart _ H Hin). intuition.
  - apply phase_extends in H. destruct Hin as [<-|[<-|Hin]].
    + do 5 right. eauto.
    + intuition.
    + specialize (Hstart _ H Hin). intuition.
  - apply phase_extends in H. destruct Hin as [<-|Hin]; [intuition|].
    specialize (Hstart _ H Hin). intuition.
Qed.

(** Only the capturing shape hands a value back. *)
Lemma sew_inv_returned m (K : unit_kind) t0 (w0 : World) s r :
  sew_inv m K t0 w0 s -> m <> Capture -> returned s = Some r -> r = VNone.
Proof.
  intros HI Hm Hr; destruct HI; destruct m; cbn in Hr;
    try discriminate; try congruence;
    try (destruct H0; congruence).
Qed.

(** The caller of a decorator dies only when it reads an attribute the unit
    does not have. *)
Lemma sew_inv_raised m (K : unit_kind) t0 (w0 : World) s e :
  sew_inv m K t0 w0 s -> raised s = Some e ->
  m = Capture /\ initial_slot K = None.
Proof.
  intros HI Hr; destruct HI; destruct m; cbn in Hr; try discriminate.
  split; [reflexivity|]. eapply phase_slot; eauto.
Qed.

End Facts.

(* ------------------------------------------------------------------ *)
(** ** The slot discipline is an invariant *)

Section Ownership.

Context {World : Type} {rt : Runtime}.

Local Abbreviation pyfun := (pyfun World).
Local Abbreviation unit_kind := (unit_kind World).
Local Abbreviation py := (py World).
Local Abbreviation state := (@state World).
Local Abbreviation config := (@config World).
Local Abbreviation event := (@event World).
Local Abbreviation bg_unit := (@bg_unit World).

(** *** Lists updated by index *)

Lemma set_nth_length (A : Type) n (a : A) l :
  List.length (set_nth n a l) = List.length l.
Proof.
  revert n; induction l as [|x l IH]; intros [|n]; simpl; auto.
Qed.

Lemma nth_error_set_nth_eq (A : Type) n (a x : A) l :
  nth_error l n = Some x -> nth_error (set_nth n a l) n = Some a.
Proof.
  revert n; induction l as [|y l IH]; intros [|n]; simpl; try discriminate; auto.
Qed.

Lemma nth_error_set_nth_neq (A : Type) n n' (a : A) l :
  n <> n' -> nth_error (set_nth n a l) n' = nth_error l n'.
Proof.
  revert n n'; induction l as [|y l IH]; intros [|n] [|n'] Hne; simpl; auto;
    congruence.
Qed.

Lemma nth_error_set_nth (A : Type) n n' (a x : A) l :
  nth_error (set_nth n a l) n' = Some x ->
  (n = n' /\ x = a /\ exists y, nth_error l n = Some y)
  \/ (n <> n' /\ nth_error l n' = Some x).
Proof.
  intros H. destruct (Nat.eq_dec n n') as [<-|Hne].
  - left. destruct (nth_error l n) as [y|] eqn:E.
    + erewrite nth_error_set_nth_eq in H by eassumption. inversion H; eauto.
    + exfalso. apply nth_error_None in E.
      assert (Hs : nth_error (set_nth n a l) n <> None) by congruence.
      apply nth_error_Some in Hs. rewrite set_nth_length in Hs. lia.
  - right. rewrite nth_error_set_nth_neq in H; auto.
Qed.

Lemma nth_error_snoc (A : Type) (l : list A) a n x :
  nth_error (l ++ [a]) n = Some x ->
  nth_error l n = Some x \/ (n = List.length l /\ x = a).
Proof.
  intros H. destruct (Nat.lt_ge_cases n (List.length l)) as [Hlt|Hge].
  - left. rewrite nth_error_app1 in H; auto.
  - right. rewrite nth_error_app2 in H; auto.
    destruct (n - List.length l)%nat as [|k] eqn:E; simpl in H.
    + inversion H; split; [lia|reflexivity].
    + destruct k; discriminate.
Qed.

(** *** The library's code obeys the discipline *)

Lemma client_code_bind (A B : Type) (m : py A) (k : A -> py B) :
  client_code m -> (forall a, client_code (k a)) -> client_code (bind m k).
Proof.
  intros Hm Hk; induction Hm; simpl; try constructor; auto.
Qed.

Lemma decorate_client_code (e : entry) (f : pyfun) args kwargs :
  client_code (decorate e f args kwargs).
Proof. destruct e; repeat (constructor; intros). Qed.

Lemma client_client_code (calls : list (@invocation World)) :
  client_code (client calls).
Proof.
  induction calls as [|c rest IH]; simpl.
  - constructor.
  - apply client_code_bind; [apply decorate_client_code | intros _; exact IH].
Qed.

Lemma run_code_run (t : tid) (K : unit_kind) :
  run_code t (descriptor K) None true (run t K).
Proof.
  destruct K as [f a kw | i f a kw | [[f a] kw] | i [[f a] kw]]; cbn.
  - apply rc_target; [reflexivity|]. intros v. apply rc_ret.
  - apply rc_wait, rc_is_set. intros [|]; cbn.
    + apply rc_set, rc_ret.
    + apply rc_target; [reflexivity|]. intros v. apply rc_set, rc_ret.
  - apply rc_target; [reflexivity|]. intros v. apply rc_write, rc_ret.
  - apply rc_wait, rc_is_set. intros [|]; cbn.
    + apply rc_set, rc_target; [reflexivity|]. intros v.
      apply rc_write, rc_ret.
    + apply rc_other. intros _. apply rc_set, rc_target; [reflexivity|].
      intros v. apply rc_write, rc_ret.
Qed.


(** *** Frame lemmas *)

Lemma writes_cons t (e : event) l :
  writes t (e :: l) = ((if is_write t e then 1 else 0) + writes t l)%nat.
Proof. unfold writes; simpl. destruct (is_write t e); reflexivity. Qed.

Lemma not_write_is_write t (e : event) :
  (forall t' v, snd e <> LWrite t' v) -> is_write t e = false.
Proof.
  intros H. unfold is_write. destruct (snd e) eqn:E; try reflexivity.
  exfalso. eapply H. reflexivity.
Qed.

Lemma justified_mono (pool pool' : list bg_unit) l :
  justified pool l -> same_kinds pool pool' -> justified pool' l.
Proof.
  intros HJ Hk; induction HJ.
  - constructor.
  - apply j_other; assumption.
  - destruct (Hk _ _ H) as (u' & Hu' & Hkind).
    eapply j_write; eauto. rewrite Hkind; assumption.
Qed.

Lemma justified_fresh (pool : list bg_unit) l t :
  justified pool l -> (List.length pool <= t)%nat -> writes t l = 0%nat.
Proof.
  intros HJ Hle; induction HJ.
  - reflexivity.
  - rewrite writes_cons, not_write_is_write by assumption. exact IHHJ.
  - rewrite writes_cons. unfold is_write; simpl.
    destruct (Nat.eqb_spec t t0) as [->|Hne]; [|exact IHHJ].
    exfalso. assert (Hs : nth_error pool t0 <> None) by congruence.
    apply nth_error_Some in Hs. lia.
Qed.

Lemma unit_inv_event l t (u : bg_unit) (e : event) :
  unit_inv l t u -> is_write t e = false -> unit_inv (e :: l) t u.
Proof.
  intros (last & may & Hrc & Hlast & Hmay & Hw) He.
  exists last, may. unfold unit_inv_parts. rewrite writes_cons, He. simpl.
  split; [assumption|]. split; [|split; [assumption|]].
  - intros v f a kw H1 H2. right. eapply Hlast; eassumption.
  - intros Hf. destruct (Hw Hf) as (H1 & v & H2 & H3).
    split; [assumption|]. exists v. split; [assumption|right; assumption].
Qed.

Lemma unit_inv_same l t (u u' : bg_unit) :
  unit_inv l t u -> kind u' = kind u -> body u' = body u ->
  return_value u' = return_value u -> unit_inv l t u'.
Proof.
  intros (last & may & Hrc & Hlast & Hmay & Hw) Hk Hb Hr.
  exists last, may. unfold unit_inv_parts. rewrite Hk, Hb, Hr. auto.
Qed.

Lemma pool_inv_event (pool : list bg_unit) l (e : event) :
  pool_inv pool l -> (forall t v, snd e <> LWrite t v) -> pool_inv pool (e :: l).
Proof.
  intros [HJ HU] He. split.
  - apply j_other; assumption.
  - intros t u Hu. apply unit_inv_event; [auto|].
    apply not_write_is_write; assumption.
Qed.

Lemma same_kinds_set_nth (pool : list bg_unit) t u u' :
  nth_error pool t = Some u -> kind u' = kind u ->
  same_kinds pool (set_nth t u' pool).
Proof.
  intros Hu Hk t1 u1 H1. destruct (Nat.eq_dec t t1) as [<-|Hne].
  - exists u'. split; [eapply nth_error_set_nth_eq; eassumption|]. congruence.
  - exists u1. split; [|reflexivity]. rewrite nth_error_set_nth_neq; auto.
Qed.

(** Replacing a unit by one of the same class that satisfies its invariant. *)
Lemma pool_inv_replace (pool : list bg_unit) l t u u' :
  pool_inv pool l -> nth_error pool t = Some u -> kind u' = kind u ->
  unit_inv l t u' -> pool_inv (set_nth t u' pool) l.
Proof.
  intros [HJ HU] Hu Hk Hinv. split.
  - eapply justified_mono; [eassumption|]. eapply same_kinds_set_nth; eauto.
  - intros t1 u1 H1.
    destruct (nth_error_set_nth _ _ _ _ H1) as [(<- & -> & _) | [Hne H2]];
      auto.
Qed.

Lemma pool_inv_put (pool : list bg_unit) l t u u' :
  pool_inv pool l -> nth_error pool t = Some u -> kind u' = kind u ->
  body u' = body u -> return_value u' = return_value u ->
  pool_inv (set_nth t u' pool) l.
Proof.
  intros HP Hu Hk Hb Hr. eapply pool_inv_replace; eauto.
  eapply unit_inv_same; eauto. destruct HP as [_ HU]; eauto.
Qed.

Lemma pool_inv_new (pool : list bg_unit) l (K : unit_kind) dm :
  pool_inv pool l ->
  pool_inv (pool ++ [new_unit dm (List.length pool) K]) l.
Proof.
  intros [HJ HU]. split.
  - eapply justified_mono; [eassumption|]. intros t u Hu.
    exists u. split; [|reflexivity]. rewrite nth_error_app1; auto.
    apply nth_error_Some; congruence.
  - intros t u Hu. destruct (nth_error_snoc _ _ _ Hu) as [H|[-> ->]]; auto.
    exists None, true. unfold unit_inv_parts. cbn.
    split; [apply run_code_run|].
    split; [discriminate|].
    assert (Hz : writes (List.length pool) l = 0%nat)
      by (eapply justified_fresh; eauto).
    rewrite Hz. split; [auto|discriminate].
Qed.

(** The unit assigns its own slot, once, the value its target returned. *)
Lemma pool_inv_write (pool : list bg_unit) l t u v k :
  pool_inv pool l -> nth_error pool t = Some u ->
  run_code t (descriptor (kind u)) (Some v) false k ->
  (forall f args kwargs, descriptor (kind u) = (f, args, kwargs) ->
     In (Unit t, LReturned f args kwargs v) l) ->
  writes t l = 0%nat ->
  pool_inv
    (set_nth t (mkUnit (kind u) (Some v) (daemon u) (status u)
                  (finished_flag u) k) pool)
    ((Unit t, LWrite t v) :: l).
Proof.
  intros [HJ HU] Hu Hrc Hret Hz.
  set (u' := mkUnit (kind u) (Some v) (daemon u) (status u) (finished_flag u) k).
  assert (Hsk : same_kinds pool (set_nth t u' pool))
    by (eapply same_kinds_set_nth; eauto).
  split.
  - destruct (descriptor (kind u)) as [[f a] kw] eqn:Hd.
    eapply j_write with (u := u') (f := f) (args := a) (kwargs := kw).
    + eapply nth_error_set_nth_eq; eassumption.
    + exact Hd.
    + apply Hret; reflexivity.
    + eapply justified_mono; eassumption.
  - intros t1 u1 H1.
    destruct (nth_error_set_nth _ _ _ _ H1) as [(<- & -> & _) | [Hne H2]].
    + exists (Some v), false. split; [exact Hrc|].
      unfold unit_inv_parts. split; [|split; [discriminate|]].
      * intros v' f a kw Hv Hd. inversion Hv; subst v'. right.
        apply Hret. exact Hd.
      * intros _. split.
        -- rewrite writes_cons, Hz. unfold is_write; simpl.
           rewrite Nat.eqb_refl. reflexivity.
        -- exists v. split; [reflexivity|left; reflexivity].
    + apply unit_inv_event; [auto|]. unfold is_write; simpl.
      apply Nat.eqb_neq. congruence.
Qed.

Lemma set_nth_set_nth (A : Type) n (a b : A) l :
  set_nth n a (set_nth n b l) = set_nth n a l.
Proof.
  revert n; induction l as [|x l IH]; intros [|n]; simpl; auto.
  now rewrite IH.
Qed.


(** *** One step keeps the discipline *)

Ltac not_a_write := cbn; intros ? ?; discriminate.

Lemma step_caller_inv (s s' : state) :
  step_caller s = Some s' -> caller_inv (caller s) -> conf_inv (conf s) ->
  caller_inv (caller s') /\ conf_inv (conf s').
Proof.
  unfold step_caller, conf_inv. destruct s as [[p|x] c]; cbn; [|discriminate].
  intros H Hc HP. destruct Hc; cbn in H.
  - discriminate.
  - inversion H; subst; cbn. split; [auto|].
    apply pool_inv_event; [|not_a_write]. apply pool_inv_new; assumption.
  - destruct (nth_error (pool c) t) as [u|] eqn:Hu;
      [destruct (status u)|]; inversion H; subst; cbn; split; auto.
    apply pool_inv_event; [|not_a_write].
    eapply pool_inv_put; eauto.
  - destruct (nth_error (pool c) t) as [u|] eqn:Hu;
      [destruct (status u)|]; inversion H; subst; cbn; split; auto.
    apply pool_inv_event; [|not_a_write].
    eapply pool_inv_put; eauto.
  - destruct (nth_error (pool c) t) as [u|] eqn:Hu;
      [destruct (status u)|]; inversion H; subst; cbn; split; auto.
    apply pool_inv_event; [assumption|not_a_write].
  - destruct (nth_error (pool c) t) as [u|] eqn:Hu;
      [destruct (return_value u)|]; inversion H; subst; cbn; split; auto.
    apply pool_inv_event; [assumption|not_a_write].
Qed.


Lemma pool_inv_finish (pool : list bg_unit) l t u (e : event) :
  pool_inv pool l -> nth_error pool t = Some u ->
  (forall t' v, snd e <> LWrite t' v) ->
  pool_inv (set_nth t (set_finished u) pool) (e :: l).
Proof.
  intros HP Hu He. apply pool_inv_event; [|assumption].
  eapply pool_inv_put; eauto.
Qed.

Lemma unit_inv_parts_same l t (u u2 : bg_unit) last may :
  unit_inv_parts l t u last may -> kind u2 = kind u ->
  return_value u2 = return_value u -> unit_inv_parts l t u2 last may.
Proof. unfold unit_inv_parts. intros H Hk Hr. rewrite Hk, Hr. exact H. Qed.

Lemma pool_inv_next (pool : list bg_unit) l t u u2 last may last' (e : event) :
  pool_inv pool l -> nth_error pool t = Some u ->
  unit_inv_parts l t u last may ->
  (forall t' v, snd e <> LWrite t' v) ->
  kind u2 = kind u -> return_value u2 = return_value u ->
  run_code t (descriptor (kind u)) last' may (body u2) ->
  (forall v f a kw, last' = Some v -> descriptor (kind u) = (f, a, kw) ->
     last = Some v \/ (Unit t, LReturned f a kw v) = e) ->
  pool_inv (set_nth t u2 pool) (e :: l).
Proof.
  intros HP Hu Hparts He Hk Hr Hrc Hlast'.
  eapply pool_inv_replace;
    [apply pool_inv_event; eassumption|eassumption|assumption|].
  destruct Hparts as (Hlast & Hmay & Hw).
  exists last', may. unfold unit_inv_parts. rewrite Hk, Hr.
  rewrite writes_cons, not_write_is_write by assumption. simpl.
  split; [assumption|]. split; [|split; [assumption|]].
  - intros v f a kw Hv Hd. destruct (Hlast' _ _ _ _ Hv Hd) as [H|H].
    + right. eapply Hlast; eassumption.
    + left. symmetry; assumption.
  - intros Hf. destruct (Hw Hf) as (H1 & v & H2 & H3).
    split; [assumption|]. exists v. split; [assumption|right; assumption].
Qed.

Lemma pool_inv_next_silent (pool : list bg_unit) l t u u2 last may :
  pool_inv pool l -> nth_error pool t = Some u ->
  unit_inv_parts l t u last may ->
  kind u2 = kind u -> return_value u2 = return_value u ->
  run_code t (descriptor (kind u)) last may (body u2) ->
  pool_inv (set_nth t u2 pool) l.
Proof.
  intros HP Hu Hparts Hk Hr Hrc.
  eapply pool_inv_replace; [eassumption|eassumption|assumption|].
  exists last, may. rewrite Hk. split; [assumption|].
  eapply unit_inv_parts_same; eassumption.
Qed.

Ltac settle H Hu Hb :=
  cbn in H; try rewrite Hu in H; cbn in H; try rewrite Hb in H;
  inversion H; subst; cbn; (split; [reflexivity|]).

Lemma step_unit_inv t (s s' : state) :
  step_unit t s = Some s' -> conf_inv (conf s) ->
  caller s' = caller s /\ conf_inv (conf s').
Proof.
  unfold step_unit, conf_inv. destruct s as [cs c]; cbn.
  destruct (nth_error (pool c) t) as [u|] eqn:Hu; [|discriminate].
  destruct (status u) eqn:Hst; try discriminate.
  intros H HP. pose proof HP as [_ HU].
  destruct (HU _ _ Hu) as (last & may & Hrc & Hparts).
  remember (body u) as p eqn:Hb.
  destruct Hrc as [ last may | f a kw k last may Hcd Hk | f a kw k last may Hk
                  | v k Hk | t' tm dl k last may Hk
                  | t' k last may Hk | t' k last may Hk ];
    cbn in H.
  - settle H Hu Hb.
    apply pool_inv_finish with (u := u); auto. not_a_write.
  - destruct (f a kw (world c)) as [v w1|e w1|]; [| |discriminate];
      settle H Hu Hb.
    + eapply pool_inv_next with (last' := Some v) (u := u); eauto;
        [not_a_write|].
      intros v' f' a' kw' Hv Hd. right. congruence.
    + apply pool_inv_finish with (u := u); auto; [|not_a_write].
      apply pool_inv_event; [assumption|not_a_write].
  - destruct (f a kw (world c)) as [v w1|e w1|]; [| |discriminate];
      settle H Hu Hb.
    + eapply pool_inv_next with (last' := None) (u := u); eauto;
        [not_a_write|discriminate].
    + apply pool_inv_finish with (u := u); auto; [|not_a_write].
      apply pool_inv_event; [assumption|not_a_write].
  - rewrite Hu in H; cbn in H.
    erewrite nth_error_set_nth_eq in H by eassumption. cbn in H.
    rewrite set_nth_set_nth in H. inversion H; subst; cbn.
    split; [reflexivity|]. destruct Hparts as (Hlast & Hmay & _).
    apply pool_inv_write; auto. apply Hmay; reflexivity.
  - destruct (nth_error (pool c) t') as [u'|];
      [destruct (finished_flag u');
       [|destruct (classify_timeout tm);
         [|destruct dl as [dl|]; [destruct (Qle_bool dl (now c))|]| |]]|];
      settle H Hu Hb.
    all: first
      [ eapply pool_inv_next with (u := u) (last' := last); eauto;
        first [ not_a_write | apply rc_wait; assumption ]
      | apply pool_inv_finish with (u := u); auto; not_a_write ].
  - destruct (nth_error (pool c) t') as [u'|]; settle H Hu Hb.
    + eapply pool_inv_next_silent with (u := u); eauto.
    + apply pool_inv_finish with (u := u); auto; not_a_write.
  - destruct (nth_error (pool c) t') as [u'|] eqn:Hu'; cbn in H.
    + destruct (Nat.eq_dec t' t) as [->|Hne].
      * rewrite Hu in Hu'; inversion Hu'; subst u'.
        erewrite nth_error_set_nth_eq in H by eassumption. cbn in H.
        rewrite set_nth_set_nth in H. inversion H; subst; cbn.
        split; [reflexivity|].
        eapply pool_inv_next with (u := u) (last' := last); eauto.
        not_a_write.
      * rewrite nth_error_set_nth_neq in H by assumption.
        rewrite Hu in H. inversion H; subst; cbn. split; [reflexivity|].
        eapply pool_inv_next with (u := u) (last' := last) (may := may);
          eauto.
        -- eapply pool_inv_put; eauto.
        -- rewrite nth_error_set_nth_neq by assumption. assumption.
        -- not_a_write.
    + settle H Hu Hb. apply pool_inv_finish with (u := u); auto; not_a_write.
Qed.

Lemma step_inv mv (s s' : state) :
  step mv s = Some s' -> caller_inv (caller s) /\ conf_inv (conf s) ->
  caller_inv (caller s') /\ conf_inv (conf s').
Proof.
  intros H [Hc HP]. destruct mv as [dt | [ | t]]; simpl in H.
  - unfold step_tick in H. destruct (Qle_bool 0 dt); inversion H; subst.
    split; assumption.
  - apply step_caller_inv with (s := s); assumption.
  - destruct (step_unit_inv _ _ H HP) as [Hcs HP'].
    rewrite Hcs. split; assumption.
Qed.

Lemma client_inv (calls : list (@invocation World)) t0 w0 ms (s : state) :
  steps ms (init (client calls) t0 w0) = Some s ->
  caller_inv (caller s) /\ conf_inv (conf s).
Proof.
  apply steps_invariant with (I := fun s => caller_inv (caller s)
                                            /\ conf_inv (conf s)).
  - intros mv s1 s2 HI Hs. eapply step_inv; eassumption.
  - split; cbn.
    + apply client_client_code.
    + split; [constructor|]. intros t u Hu. destruct t; discriminate.
Qed.


Lemma justified_split (pool : list bg_unit) (l l1 l2 : list event) a t v :
  justified pool l -> l = l1 ++ (a, LWrite t v) :: l2 ->
  a = Unit t
  /\ exists u f args kwargs,
       nth_error pool t = Some u
       /\ descriptor (kind u) = (f, args, kwargs)
       /\ In (Unit t, LReturned f args kwargs v) l2.
Proof.
  intros HJ; revert l1; induction HJ as [|e l He HJ IH|t1 v1 l u f a1 kw Hu Hd Hin HJ IH];
    intros l1 E; destruct l1 as [|x l1]; simpl in E; try discriminate.
  - inversion E; subst. exfalso. eapply He. reflexivity.
  - inversion E; subst. eapply IH; reflexivity.
  - inversion E; subst. split; [reflexivity|]. eauto 8.
  - inversion E; subst. eapply IH; reflexivity.
Qed.

(** The slot discipline, for every unit of every run of a client. *)
Lemma slot_discipline (calls : list (@invocation World)) t0 w0 ms (s : state)
    t u :
  steps ms (init (client calls) t0 w0) = Some s ->
  nth_error (pool (conf s)) t = Some u ->
  (writes t (log (conf s)) <= 1)%nat
  /\ (writes t (log (conf s)) = 0%nat ->
      return_value u = initial_slot (kind u))
  /\ (writes t (log (conf s)) = 1%nat ->
      exists v, return_value u = Some v
                /\ In (Unit t, LWrite t v) (log (conf s)))
  /\ (forall l1 a v l2,
        log (conf s) = l1 ++ (a, LWrite t v) :: l2 ->
        a = Unit t
        /\ exists f args kwargs,
             descriptor (kind u) = (f, args, kwargs)
             /\ In (Unit t, LReturned f args kwargs v) l2).
Proof.
  intros Hrun Hu. destruct (client_inv _ _ _ _ Hrun) as [_ [HJ HU]].
  destruct (HU _ _ Hu) as (last & may & _ & _ & Hmay & Hnot).
  split; [|split; [|split]].
  - destruct may; [destruct Hmay as [-> _] | destruct Hnot as [-> _]]; auto.
  - intros Hz. destruct may; [apply Hmay; reflexivity|].
    destruct Hnot as [H1 _]; [reflexivity|]. congruence.
  - intros H1. destruct may; [|apply Hnot; reflexivity].
    destruct Hmay as [Hz _]; [reflexivity|]. congruence.
  - intros l1 a v l2 E.
    destruct (justified_split _ _ _ _ _ HJ E)
      as (-> & u' & f & args & kw & Hu' & Hd & Hin).
    split; [reflexivity|]. rewrite Hu in Hu'; inversion Hu'; subst u'. eauto.
Qed.

End Ownership.

(* ------------------------------------------------------------------ *)
(** ** The decorators and their shapes *)

Section Decorators.

Context {World : Type} {rt : Runtime}.

Local Abbreviation pyfun := (pyfun World).
Local Abbreviation unit_kind := (unit_kind World).
Local Abbreviation py := (py World).
Local Abbreviation state := (@state World).
Local Abbreviation event := (@event World).

Variables (f : pyfun) (args : args_t) (kwargs : kwargs_t) (seconds : value).

Lemma thread_shape :
  thread f args kwargs = skeleton Forget (KThread f args kwargs).
Proof. reflexivity. Qed.

Lemma thread_join_shape :
  thread_join f args kwargs = skeleton Joined (KThread f args kwargs).
Proof. reflexivity. Qed.

Lemma thread_daemon_shape :
  thread_daemon f args kwargs = skeleton Daemon (KThread f args kwargs).
Proof. reflexivity. Qed.

Lemma thread_with_return_value_shape :
  thread_with_return_value f args kwargs
  = skeleton Joined (KFunctionThreadWithReturnValue (f, args, kwargs)).
Proof. reflexivity. Qed.

Lemma delay_shape :
  delay seconds f args kwargs = skeleton Forget (KTimer seconds f args kwargs).
Proof. reflexivity. Qed.

Lemma delay_join_shape :
  delay_join seconds f args kwargs
  = skeleton Joined (KTimer seconds f args kwargs).
Proof. reflexivity. Qed.

Lemma delay_daemon_shape :
  delay_daemon seconds f args kwargs
  = skeleton Daemon (KTimer seconds f args kwargs).
Proof. reflexivity. Qed.

Lemma delay_with_return_value_shape :
  delay_with_return_value seconds f args kwargs
  = skeleton Capture
      (KDelayedFunctionWithReturnValue seconds (f, args, kwargs)).
Proof. reflexivity. Qed.

End Decorators.

Ltac no_unit_event :=
  match goal with
  | H : unit_event _ = true |- _ =>
      unfold unit_event in H; cbn in H;
      first [ discriminate H
            | rewrite andb_false_r in H; discriminate H ]
  end.

Ltac exec_move :=
  unfold step, step_caller, step_unit, step_tick; cbn;
  repeat first
    [ rewrite tick_nap_enabled; cbn
    | rewrite deadline_reached; cbn
    | match goal with
      | E : ?x = _ |- context [match ?x with _ => _ end] => rewrite E; cbn
      end ];
  reflexivity.

Ltac exec_schedule :=
  repeat (eapply steps_cons; [exec_move|]); cbn.

Section ImmediateCapture.

Context {World : Type} {rt : Runtime}.

Local Abbreviation pyfun := (pyfun World).
Local Abbreviation state := (@state World).

Variables (f : pyfun) (args : args_t) (kwargs : kwargs_t).
Variables (t0 : Q) (w0 : World).

Lemma twrv_returns_None ms (s : state) r :
  steps ms (init (thread_with_return_value f args kwargs) t0 w0) = Some s ->
  returned s = Some r -> r = VNone.
Proof.
  intros Hrun Hr. rewrite thread_with_return_value_shape in Hrun.
  apply sew_reach in Hrun.
  eapply sew_inv_returned; eauto. discriminate.
Qed.

Lemma twrv_never_reads ms (s : state) a t v :
  steps ms (init (thread_with_return_value f args kwargs) t0 w0) = Some s ->
  ~ In (a, LRead t v) (log (conf s)).
Proof.
  intros Hrun Hin. rewrite thread_with_return_value_shape in Hrun.
  apply sew_reach in Hrun.
  destruct (sew_inv_events _ Hrun Hin)
    as [Hu | [E | [E | [[E _] | [[_ E] | [E _]]]]]];
    try discriminate; no_unit_event.
Qed.

Lemma twrv_completes v w1 :
  f args kwargs w0 = Returns v w1 ->
  exists s : state,
    steps twrv_schedule (init (thread_with_return_value f args kwargs) t0 w0)
    = Some s
    /\ returned s = Some VNone
    /\ (exists u, unit0 s = Some u /\ return_value u = Some v
                  /\ status u = Finished).
Proof.
  intros Hf. eexists. split; [|split].
  - unfold twrv_schedule. exec_schedule. reflexivity.
  - reflexivity.
  - eexists; split; [reflexivity|]. split; reflexivity.
Qed.

End ImmediateCapture.

Ltac same_outcome :=
  repeat match goal with
  | H1 : ?x = Returns _ _, H2 : ?x = Returns _ _ |- _ =>
      rewrite H1 in H2; inversion H2; subst; clear H2
  | H1 : ?x = Raises _ _, H2 : ?x = Raises _ _ |- _ =>
      rewrite H1 in H2; inversion H2; subst; clear H2
  | H1 : ?x = Seconds _, H2 : ?x = Seconds _ |- _ =>
      rewrite H1 in H2; inversion H2; subst; clear H2
  end.

Ltac wait_class :=
  unfold wait_fails;
  match goal with
  | E : classify_timeout ?i = _ |- context [classify_timeout ?i] => rewrite E
  end;
  first [ reflexivity | discriminate | congruence ].

Ltac wait_ok Hc :=
  try (exfalso; unfold wait_fails in Hc;
       match goal with
       | E : classify_timeout _ = _ |- _ => rewrite E in Hc
       end;
       discriminate Hc).

Ltac inv_phase H := inversion H; subst; clear H; try congruence; same_outcome.

Section CallFacts.

Context {World : Type} {rt : Runtime}.

Local Abbreviation pyfun := (pyfun World).
Local Abbreviation unit_kind := (unit_kind World).
Local Abbreviation py := (py World).
Local Abbreviation state := (@state World).
Local Abbreviation event := (@event World).

(** The unit of a decorated call keeps its class, and with it the fields its
    constructor stored. *)
Lemma sew_inv_kind m (K : unit_kind) t0 (w0 : World) s u :
  sew_inv m K t0 w0 s -> unit0 s = Some u -> kind u = K.
Proof.
  intros HI Hu; destruct HI; cbn in Hu; try discriminate;
    inversion Hu; reflexivity.
Qed.

(** A joined call that has returned left a finished unit behind. *)
Lemma sew_inv_joined m (K : unit_kind) t0 (w0 : World) s r :
  sew_inv m K t0 w0 s -> m = Joined \/ m = Capture -> returned s = Some r ->
  exists slot flag body l,
    phase t0 w0 (start_log m K) K Finished slot flag body (world (conf s)) l
      (now (conf s))
    /\ unit0 s = Some (mkUnit K slot (unit_daemon m) Finished flag body)
    /\ (forall e, In e l -> In e (log (conf s)))
    /\ (m = Capture -> slot = Some r)
    /\ (m = Joined -> r = VNone).
Proof.
  intros HI Hm Hr.
  destruct HI; destruct Hm; subst; cbn in Hr; try discriminate.
  all: try match goal with H : _ \/ _ |- _ => destruct H; discriminate end.
  all: inversion Hr; subst; do 4 eexists; (split; [eassumption|]);
    (split; [reflexivity|]); (split; [|split]); try discriminate; auto;
    intros e He; cbn; auto.
Qed.

(** The delayed capturing call: what a returned call returned, and when. *)
Lemma dwrv_returned seconds (f : pyfun) args kwargs t0 (w0 : World) ms s r :
  steps ms (init (delay_with_return_value seconds f args kwargs) t0 w0)
  = Some s ->
  returned s = Some r ->
  (wait_fails seconds = true /\ r = VNone)
  \/ (exists d, classify_timeout seconds = Seconds d
        /\ (t0 + d <= now (conf s))%Q
        /\ (f args kwargs w0 = Returns r (world (conf s))
            \/ (exists e, f args kwargs w0 = Raises e (world (conf s)))
               /\ r = VNone)).
Proof.
  intros Hrun Hr. rewrite delay_with_return_value_shape in Hrun.
  apply sew_reach in Hrun.
  destruct (sew_inv_joined Hrun (or_intror eq_refl) Hr)
    as (slot & flag & body & l & HP & _ & _ & Hslot & _).
  specialize (Hslot eq_refl); subst slot.
  inv_phase HP.
  - left. split; [wait_class|reflexivity].
  - left. split; [wait_class|reflexivity].
  - right; exists d; auto.
  - right; exists d. split; [assumption|]. split; [assumption|].
    right; split; [eauto|reflexivity].
Qed.

(** While the target of a capturing unit raises, the Result Slot keeps the
    value [__init__] gave it and nobody assigns it. *)
Lemma raising_target_keeps_slot m (K : unit_kind) (f : pyfun) args kwargs
    seconds t0 (w0 : World) e w1 s :
  K = KFunctionThreadWithReturnValue (f, args, kwargs)
  \/ K = KDelayedFunctionWithReturnValue seconds (f, args, kwargs) ->
  f args kwargs w0 = Raises e w1 ->
  sew_inv m K t0 w0 s ->
  (forall u, unit0 s = Some u -> return_value u = Some VNone)
  /\ (forall a t v, ~ In (a, LWrite t v) (log (conf s))).
Proof.
  intros HK Hf HI. split.
  - intros u Hu.
    destruct HI; cbn in Hu; try discriminate; inversion Hu; subst u; cbn;
      try (destruct HK; subst K; reflexivity);
      destruct HK; subst K; inv_phase H.
  - intros a t v Hin.
    destruct HI; cbn in Hin; try (intuition discriminate);
      destruct HK; subst K.
    all: inv_phase H; try destruct m; cbn in Hin; intuition discriminate.
Qed.

End CallFacts.

(** *** Schedules on which the joined decorators return *)

Section Liveness.

Context {World : Type} {rt : Runtime}.

Local Abbreviation pyfun := (pyfun World).
Local Abbreviation state := (@state World).

Variables (f : pyfun) (args : args_t) (kwargs : kwargs_t) (seconds : value).
Variables (t0 : Q) (w0 : World).

Lemma twrv_completes_raising e w1 :
  f args kwargs w0 = Raises e w1 ->
  exists s : state,
    steps raising_schedule
      (init (thread_with_return_value f args kwargs) t0 w0) = Some s
    /\ returned s = Some VNone.
Proof.
  intros Hf. eexists. split.
  - unfold raising_schedule. exec_schedule. reflexivity.
  - reflexivity.
Qed.

Lemma thread_join_completes :
  f args kwargs w0 <> Diverges ->
  exists ms (s : state),
    steps ms (init (thread_join f args kwargs) t0 w0) = Some s
    /\ returned s = Some VNone.
Proof.
  intros Hf. destruct (f args kwargs w0) as [v w1|e w1|] eqn:E;
    [| |congruence].
  - exists thread_schedule. eexists. split.
    + unfold thread_schedule. exec_schedule. reflexivity.
    + reflexivity.
  - exists raising_schedule. eexists. split.
    + unfold raising_schedule. exec_schedule. reflexivity.
    + reflexivity.
Qed.

Lemma delay_join_completes d :
  classify_timeout seconds = Seconds d ->
  f args kwargs w0 <> Diverges ->
  exists ms (s : state),
    steps ms (init (delay_join seconds f args kwargs) t0 w0) = Some s
    /\ returned s = Some VNone.
Proof.
  intros Hc Hf. destruct (f args kwargs w0) as [v w1|e w1|] eqn:E;
    [| |congruence].
  - exists (timer_schedule d). eexists. split.
    + unfold timer_schedule. exec_schedule. reflexivity.
    + reflexivity.
  - exists (timer_raising_schedule d). eexists. split.
    + unfold timer_raising_schedule. exec_schedule. reflexivity.
    + reflexivity.
Qed.

Lemma dwrv_completes d v w1 :
  classify_timeout seconds = Seconds d ->
  f args kwargs w0 = Returns v w1 ->
  exists s : state,
    steps (delayed_schedule d)
      (init (delay_with_return_value seconds f args kwargs) t0 w0) = Some s
    /\ returned s = Some v.
Proof.
  intros Hc Hf. eexists. split.
  - unfold delayed_schedule. exec_schedule. reflexivity.
  - reflexivity.
Qed.

Lemma dwrv_completes_raising d e w1 :
  classify_timeout seconds = Seconds d ->
  f args kwargs w0 = Raises e w1 ->
  exists s : state,
    steps (delayed_raising_schedule d)
      (init (delay_with_return_value seconds f args kwargs) t0 w0) = Some s
    /\ returned s = Some VNone.
Proof.
  intros Hc Hf. eexists. split.
  - unfold delayed_raising_schedule. exec_schedule. reflexivity.
  - reflexivity.
Qed.

End Liveness.

(** *** The decorators that do not join *)

Section FireAndForget.

Context {World : Type} {rt : Runtime}.

Local Abbreviation pyfun := (pyfun World).
Local Abbreviation unit_kind := (unit_kind World).
Local Abbreviation py := (py World).
Local Abbreviation state := (@state World).

Lemma forget_progress m (K : unit_kind) t0 (w0 : World) s :
  sew_inv m K t0 w0 s -> m = Forget \/ m = Daemon ->
  returned s = None -> step (Act Caller) s <> None.
Proof.
  intros HI Hm Hr.
  destruct HI; destruct Hm; subst; cbn in Hr; try discriminate;
    try match goal with H : _ \/ _ |- _ => destruct H; discriminate end;
    unfold step, step_caller; cbn; discriminate.
Qed.

Lemma forget_returns_at_once m (K : unit_kind) t0 (w0 : World) :
  m = Forget \/ m = Daemon ->
  exists s : state,
    steps (caller_schedule m) (init (skeleton m K) t0 w0) = Some s
    /\ returned s = Some VNone
    /\ unit0 s
       = Some (mkUnit K (initial_slot K) (unit_daemon m) Started false (run 0 K))
    /\ history (Unit 0) s = [].
Proof.
  intros [-> | ->]; eexists; (split; [reflexivity|]); cbn; auto.
Qed.

Lemma caller_schedule_caller_only m :
  Forall (fun mv => mv = Act Caller) (caller_schedule m).
Proof. destruct m; repeat constructor. Qed.

(** A timeout that is neither [None] nor a number makes the timer's own
    thread fail in [wait]; the caller is not touched. *)
Lemma bad_timeout_fault m (K : unit_kind) seconds t0 (w0 : World) :
  interval_of K = Some seconds ->
  classify_timeout seconds = BadTimeout ->
  exists ms (s : state),
    steps ms (init (skeleton m K) t0 w0) = Some s
    /\ In (Unit 0, LExcepthook TypeError) (log (conf s))
    /\ raised s = None.
Proof.
  intros HK Hc.
  exists (if is_daemon m then [Act Caller; Act Caller; Act Caller; Act (Unit 0)]
          else [Act Caller; Act Caller; Act (Unit 0)]).
  destruct K as [f a kw | i f a kw | [[f a] kw] | i [[f a] kw]];
    cbn in HK; try discriminate; inversion HK; subst i;
    destruct m; eexists; (split; [exec_schedule; reflexivity|]);
    cbn; auto.
Qed.

End FireAndForget.

(** *** What the units did, in order *)

Section Histories.

Context {World : Type} {rt : Runtime}.

Local Abbreviation pyfun := (pyfun World).
Local Abbreviation state := (@state World).

Variables (f : pyfun) (args : args_t) (kwargs : kwargs_t) (seconds : value).
Variables (t0 : Q) (w0 : World).

Ltac prefix_of :=
  first [ exists 0%nat; reflexivity | exists 1%nat; reflexivity
        | exists 2%nat; reflexivity | exists 3%nat; reflexivity
        | exists 4%nat; reflexivity | exists 5%nat; reflexivity
        | exists 6%nat; reflexivity | exists 7%nat; reflexivity ].

Lemma dwrv_history v w1 ms (s : state) :
  wait_fails seconds = false ->
  f args kwargs w0 = Returns v w1 ->
  steps ms (init (delay_with_return_value seconds f args kwargs) t0 w0)
  = Some s ->
  (exists n, history (Unit 0) s = firstn n (delayed_trace f args kwargs v))
  /\ (forall r, returned s = Some r ->
        history (Unit 0) s = delayed_trace f args kwargs v).
Proof.
  intros Hc Hf Hrun. rewrite delay_with_return_value_shape in Hrun.
  apply sew_reach in Hrun. split.
  - destruct Hrun; try (exists 0%nat; reflexivity);
      inv_phase H; wait_ok Hc; unfold history; cbn; prefix_of.
  - intros r Hr. destruct Hrun; cbn in Hr; try discriminate.
    inv_phase H; wait_ok Hc. reflexivity.
Qed.

(** The plain timer, for comparison: the same first four events. *)
Lemma delay_history v w1 ms (s : state) :
  wait_fails seconds = false ->
  f args kwargs w0 = Returns v w1 ->
  steps ms (init (delay seconds f args kwargs) t0 w0) = Some s ->
  exists n,
    history (Unit 0) s = firstn n (timer_trace f args kwargs v ++ [LExit]).
Proof.
  intros Hc Hf Hrun. rewrite delay_shape in Hrun.
  apply sew_reach in Hrun.
  destruct Hrun; try (exists 0%nat; reflexivity); try discriminate;
    inv_phase H; wait_ok Hc; unfold history; cbn; prefix_of.
Qed.

End Histories.

(* ------------------------------------------------------------------ *)
(** ** Concrete runs *)

Section Runs.

#[local] Existing Instance posix_main.

(** [delay_with_return_value(0.2)(square)(7)] returns [49], a fifth of a
    second after the call. *)
Example delayed_square_returns_49 :
  option_map (fun s : @state unit => (returned s, Qeq_bool (now (conf s)) (1 # 5)))
    (steps (delayed_schedule (1 # 5))
       (init (delay_with_return_value (VFloat (1 # 5)) square [VInt 7] [])
          0%Q tt))
  = Some (Some (VInt 49), true).
Proof. vm_compute. reflexivity. Qed.

(** Without the tick the timer's wait is not over: the unit cannot move. *)
Example timer_waits_for_its_deadline :
  steps [Act Caller; Act Caller; Act (Unit 0); Act (Unit 0)]
    (init (delay_with_return_value (VFloat (1 # 5)) square [VInt 7] [])
       0%Q tt)
  = None.
Proof. vm_compute. reflexivity. Qed.

(** A caller in [join] cannot move while its unit has not finished. *)
Example join_blocks_the_caller :
  steps [Act Caller; Act Caller; Act Caller]
    (init (thread_join square [VInt 7] []) 0%Q tt)
  = None.
Proof. vm_compute. reflexivity. Qed.

(** [thread_with_return_value(square)(7)] returns [None]. *)
Example immediate_square_returns_None :
  option_map (fun s : @state unit => returned s)
    (steps twrv_schedule
       (init (thread_with_return_value square [VInt 7] []) 0%Q tt))
  = Some (Some VNone).
Proof. vm_compute. reflexivity. Qed.

(** A raising target: the wrapper returns [None], the excepthook has the
    exception. *)
Example faulty_is_swallowed :
  option_map (fun s : @state unit => (returned s, raised s, history (Unit 0) s))
    (steps raising_schedule
       (init (thread_with_return_value faulty [] []) 0%Q tt))
  = Some (Some VNone, None,
          [LRaised faulty [] [] "Exception"%string;
           LExcepthook "Exception"%string]).
Proof. vm_compute. reflexivity. Qed.

(** [thread_join] of a counter increment: the increment is visible when the
    wrapper has returned; with [thread] the caller returns before it. *)
Example joined_bump_is_visible :
  option_map (fun s : @state Z => (returned s, world (conf s)))
    (steps thread_schedule (init (thread_join bump [] []) 0%Q 0%Z))
  = Some (Some VNone, 1%Z).
Proof. vm_compute. reflexivity. Qed.

Example forgotten_bump_is_pending :
  option_map (fun s : @state Z => (returned s, world (conf s)))
    (steps (caller_schedule Forget) (init (thread bump [] []) 0%Q 0%Z))
  = Some (Some VNone, 0%Z).
Proof. vm_compute. reflexivity. Qed.

(** [delay_daemon] marks its timer as a daemon before it starts it. *)
Example delay_daemon_sets_the_flag :
  option_map (fun s : @state unit => (option_map (@daemon unit) (unit0 s),
                                      history Caller s))
    (steps (caller_schedule Daemon)
       (init (delay_daemon (VInt 3) faulty [] []) 0%Q tt))
  = Some (Some true,
          [LNew 0 (KTimer (VInt 3) faulty [] []); LSetDaemon 0 true; LStart 0]).
Proof. vm_compute. reflexivity. Qed.

(** Ten thousand million seconds are more than the timed wait accepts: the
    timer's thread ends with [OverflowError], [square] is not called, and
    the wrapper returns [None] at once. *)
Example oversized_delay_returns_None :
  option_map (fun s : @state unit => (returned s, history (Unit 0) s,
                                      Qeq_bool (now (conf s)) 0))
    (steps (bad_timeout_schedule Capture)
       (init (delay_with_return_value (VInt 10000000000) square [VInt 7] [])
          0%Q tt))
  = Some (Some VNone, [LExcepthook OverflowError], true).
Proof. vm_compute. reflexivity. Qed.

End Runs.

(* ------------------------------------------------------------------ *)
(** ** The claims *)

Unset Implicit Arguments.

Section Claims.

Context {World : Type} {rt : Runtime}.

Local Abbreviation pyfun := (pyfun World).
Local Abbreviation py := (py World).
Local Abbreviation state := (@state World).

(** C2: for every function and arguments, the wrapper made by
    [thread_with_return_value] returns [None] whatever the target returns.
    Its [call] joins the unit and ends without a [return] statement: on every
    schedule a returned call returned [None], the caller never reads the
    [return_value] field, and when the target returns [v] the call does
    return, with [v] left in the field of the finished unit. *)
Theorem C2_thread_with_return_value_returns_None
    (f : pyfun) (args : args_t) (kwargs : kwargs_t) (t0 : Q) (w0 : World) :
  (forall ms (s : state) r,
      steps ms (init (thread_with_return_value f args kwargs) t0 w0) = Some s ->
      returned s = Some r -> r = VNone)
  /\ (forall ms (s : state) a t v,
        steps ms (init (thread_with_return_value f args kwargs) t0 w0)
        = Some s ->
        ~ In (a, LRead t v) (log (conf s)))
  /\ (forall v w1,
        f args kwargs w0 = Returns v w1 ->
        exists s : state,
          steps twrv_schedule
            (init (thread_with_return_value f args kwargs) t0 w0) = Some s
          /\ returned s = Some VNone
          /\ (exists u, unit0 s = Some u /\ return_value u = Some v
                        /\ status u = Finished)).
Proof.
  split; [|split].
  - intros ms s r. apply twrv_returns_None.
  - intros ms s a t v. apply twrv_never_reads.
  - intros v w1. apply twrv_completes.
Qed.

(** C3, as amended: for every delay [0 <= d <= TIMEOUT_MAX] and every target
    that returns [v], the wrapper made by [delay_with_return_value(d)]
    returns [v], and not before [d] seconds have passed since the call: on
    every schedule a returned call returned [v] at a time [>= t0 + d], there
    is a schedule on which it returns, and before [t0 + d] the caller has not
    returned. Above [TIMEOUT_MAX] the timer's wait raises, and the claim
    fails. *)
Theorem C3_delay_with_return_value_waits_then_returns
    (f : pyfun) (args : args_t) (kwargs : kwargs_t) (seconds : value) (d : Q)
    (t0 : Q) (w0 : World) (v : value) (w1 : World) :
  number_of seconds = Some d ->
  (0 <= d)%Q ->
  (d <= TIMEOUT_MAX)%Q ->
  f args kwargs w0 = Returns v w1 ->
  (forall ms (s : state) r,
      steps ms (init (delay_with_return_value seconds f args kwargs) t0 w0)
      = Some s ->
      returned s = Some r ->
      r = v /\ (t0 + d <= now (conf s))%Q)
  /\ (exists s : state,
        steps (delayed_schedule d)
          (init (delay_with_return_value seconds f args kwargs) t0 w0) = Some s
        /\ returned s = Some v)
  /\ (forall ms (s : state),
        steps ms (init (delay_with_return_value seconds f args kwargs) t0 w0)
        = Some s ->
        (now (conf s) < t0 + d)%Q -> returned s = None).
Proof.
  intros Hn Hd Hmax Hf.
  pose proof (classify_number _ Hn Hmax) as Hc.
  assert (Hsafe : forall ms (s : state) r,
      steps ms (init (delay_with_return_value seconds f args kwargs) t0 w0)
      = Some s ->
      returned s = Some r -> r = v /\ (t0 + d <= now (conf s))%Q).
  { intros ms s r Hrun Hr.
    destruct (dwrv_returned _ _ _ _ _ _ _ Hrun Hr)
      as [[Hbad _] | (d' & Hc' & Hnow & [Hret | [[e He] _]])];
      try congruence.
    { unfold wait_fails in Hbad. rewrite Hc in Hbad. discriminate. }
    rewrite Hc in Hc'; inversion Hc'; subst d'.
    rewrite Hf in Hret; inversion Hret; subst. split; [reflexivity|assumption]. }
  split; [exact Hsafe|]. split.
  - eapply dwrv_completes; eassumption.
  - intros ms s Hrun Hlt. destruct (returned s) as [r|] eqn:Hr; [|reflexivity].
    destruct (Hsafe _ _ _ Hrun Hr) as [_ Hle]. lra.
Qed.

(** C4: when the target raises, neither capturing wrapper
    ([thread_with_return_value(f)], [delay_with_return_value(d)(f)]) lets the
    exception reach the caller: on every schedule the caller has not raised,
    the Result Slot still holds [None] and was never assigned, and a returned
    call returned [None]; with a numeric delay there is a schedule on which
    the call returns. *)
Theorem C4_capturing_wrappers_swallow_the_exception
    (f : pyfun) (args : args_t) (kwargs : kwargs_t) (seconds : value)
    (t0 : Q) (w0 : World) (e : exn) (w1 : World) (p : py value) :
  f args kwargs w0 = Raises e w1 ->
  In p [thread_with_return_value f args kwargs;
        delay_with_return_value seconds f args kwargs] ->
  (forall ms (s : state),
      steps ms (init p t0 w0) = Some s ->
      raised s = None
      /\ (forall u, unit0 s = Some u -> return_value u = Some VNone)
      /\ (forall a t v, ~ In (a, LWrite t v) (log (conf s)))
      /\ (forall r, returned s = Some r -> r = VNone))
  /\ (forall d, classify_timeout seconds = Seconds d ->
        exists ms (s : state),
          steps ms (init p t0 w0) = Some s /\ returned s = Some VNone).
Proof.
  intros Hf [<- | [<- | []]].
  - split.
    + intros ms s Hrun. pose proof Hrun as HI.
      rewrite thread_with_return_value_shape in HI. apply sew_reach in HI.
      destruct (raising_target_keeps_slot (seconds := seconds)
                  (or_introl eq_refl) Hf HI) as [Hslot Hwrite].
      split; [|split; [|split]]; try assumption.
      * destruct (raised s) as [x|] eqn:Hx; [|reflexivity].
        destruct (sew_inv_raised HI Hx); discriminate.
      * intros r. eapply twrv_returns_None; eassumption.
    + intros d _. exists raising_schedule.
      eapply twrv_completes_raising; eassumption.
  - split.
    + intros ms s Hrun. pose proof Hrun as HI.
      rewrite delay_with_return_value_shape in HI. apply sew_reach in HI.
      destruct (raising_target_keeps_slot (or_intror eq_refl) Hf HI)
        as [Hslot Hwrite].
      split; [|split; [|split]]; try assumption.
      * destruct (raised s) as [x|] eqn:Hx; [|reflexivity].
        destruct (sew_inv_raised HI Hx); discriminate.
      * intros r Hr.
        destruct (dwrv_returned _ _ _ _ _ _ _ Hrun Hr)
          as [[_ ?] | (d' & _ & _ & [Hret | [_ ?]])]; congruence.
    + intros d Hc. exists (delayed_raising_schedule d).
      eapply dwrv_completes_raising; eassumption.
Qed.


(** C5: the run body of the delayed capturing timer is the base timer's run
    body followed by the capture step. On every schedule the unit's history
    is a prefix of: wait for the delay, call the base timer's function
    ([lambda: None]), set [finished], and only then call the target and store
    its value; a returned call saw all of it. The first four events are the
    ones of a plain timer. The wait is one that does not raise. *)
Theorem C5_capture_is_appended_to_the_timer_firing
    (f : pyfun) (args : args_t) (kwargs : kwargs_t) (seconds : value)
    (t0 : Q) (w0 : World) (v : value) (w1 : World) :
  wait_fails seconds = false ->
  f args kwargs w0 = Returns v w1 ->
  run 0 (KDelayedFunctionWithReturnValue seconds (f, args, kwargs))
  = (Timer_run 0 seconds lambda_None [] [] ;; capture 0 f args kwargs)
  /\ delayed_trace f args kwargs v
     = timer_trace lambda_None [] [] VNone
         ++ [LReturned f args kwargs v; LWrite 0 v; LExit]
  /\ (forall ms (s : state),
        steps ms (init (delay_with_return_value seconds f args kwargs) t0 w0)
        = Some s ->
        (exists n, history (Unit 0) s = firstn n (delayed_trace f args kwargs v))
        /\ (forall r, returned s = Some r ->
              history (Unit 0) s = delayed_trace f args kwargs v))
  /\ (forall ms (s : state),
        steps ms (init (delay seconds lambda_None [] []) t0 w0) = Some s ->
        exists n,
          history (Unit 0) s
          = firstn n (timer_trace lambda_None [] [] VNone ++ [LExit])).
Proof.
  intros Hc Hf. split; [reflexivity|]. split; [reflexivity|]. split.
  - intros ms s Hrun. eapply dwrv_history; eassumption.
  - intros ms s Hrun. eapply delay_history; try eassumption. reflexivity.
Qed.

(** C7: the wrappers made by [thread], [thread_daemon], [delay(d)] and
    [delay_daemon(d)] never block the caller. On every schedule the caller
    has not raised, nobody has joined or read a result, a caller that has not
    returned can take its next step, and a returned call returned [None]
    whatever the target does. The caller's own two or three steps take it to
    its return, with the unit started and nothing of it run yet. *)
Theorem C7_fire_and_forget_never_blocks
    (f : pyfun) (args : args_t) (kwargs : kwargs_t) (seconds : value)
    (t0 : Q) (w0 : World) (p : py value) :
  In p [thread f args kwargs; thread_daemon f args kwargs;
        delay seconds f args kwargs; delay_daemon seconds f args kwargs] ->
  (forall ms (s : state),
      steps ms (init p t0 w0) = Some s ->
      raised s = None
      /\ (forall a t, ~ In (a, LJoin t) (log (conf s)))
      /\ (forall a t v, ~ In (a, LRead t v) (log (conf s)))
      /\ (returned s = None -> step (Act Caller) s <> None)
      /\ (forall r, returned s = Some r -> r = VNone))
  /\ (exists ms (s : state),
        Forall (fun mv => mv = Act Caller) ms
        /\ steps ms (init p t0 w0) = Some s
        /\ returned s = Some VNone
        /\ (exists u, unit0 s = Some u /\ status u = Started)
        /\ history (Unit 0) s = []).
Proof.
  intros Hp.
  assert (Hshape : exists m K,
             p = skeleton m K /\ (m = Forget \/ m = Daemon)).
  { destruct Hp as [<- | [<- | [<- | [<- | []]]]];
      [ exists Forget, (KThread f args kwargs)
      | exists Daemon, (KThread f args kwargs)
      | exists Forget, (KTimer seconds f args kwargs)
      | exists Daemon, (KTimer seconds f args kwargs) ];
      (split; [reflexivity|]); auto. }
  destruct Hshape as (m & K & -> & Hm). split.
  - intros ms s Hrun. apply sew_reach in Hrun.
    split; [|split; [|split; [|split]]].
    + destruct (raised s) as [x|] eqn:Hx; [|reflexivity].
      destruct (sew_inv_raised Hrun Hx) as [-> _]. destruct Hm; discriminate.
    + intros a t Hin.
      destruct (sew_inv_events _ Hrun Hin)
        as [Hu | [E | [E | [[_ E] | [[Hj _] | [_ [x E]]]]]]];
        try discriminate; try no_unit_event.
      destruct Hj, Hm; congruence.
    + intros a t v Hin.
      destruct (sew_inv_events _ Hrun Hin)
        as [Hu | [E | [E | [[_ E] | [[_ E] | [Hc _]]]]]];
        try discriminate; try no_unit_event.
      destruct Hm; congruence.
    + apply forget_progress with (1 := Hrun); assumption.
    + intros r. apply sew_inv_returned with (1 := Hrun).
      destruct Hm; congruence.
  - exists (caller_schedule m).
    destruct (forget_returns_at_once K t0 w0 Hm) as (s & Hrun & Hr & Hu & Hh).
    exists s. split; [apply caller_schedule_caller_only|].
    split; [assumption|]. split; [assumption|]. split; [|assumption].
    eexists; split; [eassumption|reflexivity].
Qed.

(** C8, as amended: the wrappers made by [thread_join] and [delay_join(d)],
    the delay [d] being a number not above [TIMEOUT_MAX], return only once
    the target has completed, and return nothing. On every schedule a
    returned call returned [None], its unit is finished, the world is the one
    the target left (it returned or raised, and the log has that event), and
    nobody read a result; when the target terminates there is a schedule on
    which the call returns. Above [TIMEOUT_MAX] the timer's wait raises and
    [delay_join] returns with the target not run. *)
Theorem C8_joined_wrappers_wait_for_the_target
    (f : pyfun) (args : args_t) (kwargs : kwargs_t) (seconds : value) (d : Q)
    (t0 : Q) (w0 : World) (p : py value) :
  number_of seconds = Some d ->
  (d <= TIMEOUT_MAX)%Q ->
  In p [thread_join f args kwargs; delay_join seconds f args kwargs] ->
  (forall ms (s : state) r,
      steps ms (init p t0 w0) = Some s ->
      returned s = Some r ->
      r = VNone
      /\ (exists u, unit0 s = Some u /\ status u = Finished)
      /\ ((exists v, f args kwargs w0 = Returns v (world (conf s))
                     /\ In (Unit 0, LReturned f args kwargs v) (log (conf s)))
          \/ (exists e, f args kwargs w0 = Raises e (world (conf s))
                        /\ In (Unit 0, LRaised f args kwargs e) (log (conf s))))
      /\ (forall a t v, ~ In (a, LRead t v) (log (conf s))))
  /\ (f args kwargs w0 <> Diverges ->
      exists ms (s : state),
        steps ms (init p t0 w0) = Some s /\ returned s = Some VNone).
Proof.
  intros Hn Hmax Hp.
  pose proof (classify_number _ Hn Hmax) as Hc.
  assert (Hshape : exists K,
             p = skeleton Joined K
             /\ (K = KThread f args kwargs \/ K = KTimer seconds f args kwargs)).
  { destruct Hp as [<- | [<- | []]];
      [ exists (KThread f args kwargs)
      | exists (KTimer seconds f args kwargs) ];
      (split; [reflexivity|]); auto. }
  split.
  - destruct Hshape as (K & -> & HK).
    intros ms s r Hrun Hr. apply sew_reach in Hrun.
    destruct (sew_inv_joined Hrun (or_introl eq_refl) Hr)
      as (slot & flag & body & l & HP & Hu & Hl & _ & Hnone).
    split; [auto|]. split; [eexists; split; [eassumption|reflexivity]|].
    split.
    + destruct HK; subst K; inv_phase HP;
        first [ left; eexists; split; [eassumption|]; apply Hl; cbn; tauto
              | right; eexists; split; [eassumption|]; apply Hl; cbn; tauto ].
    + intros a t v Hin.
      destruct (sew_inv_events _ Hrun Hin)
        as [Hx | [E | [E | [[_ E] | [[_ E] | [E _]]]]]];
        try discriminate; no_unit_event.
  - intros Hf. destruct Hp as [<- | [<- | []]].
    + apply thread_join_completes; assumption.
    + eapply delay_join_completes; eassumption.
Qed.

(** C9: the four delayed factories ([delay], [delay_join], [delay_daemon],
    [delay_with_return_value]) do not validate [seconds]. For every value,
    malformed or negative included, the caller's first step builds the timer
    with that very value as its interval, on every schedule the caller has
    not raised and the timer still holds the value, and every fault was
    reported from the unit's own thread; a value that is not a number makes
    [wait] raise [TypeError] there. *)
Theorem C9_seconds_is_passed_unchanged
    (f : pyfun) (args : args_t) (kwargs : kwargs_t) (seconds : value)
    (t0 : Q) (w0 : World) (p : py value) :
  In p [delay seconds f args kwargs; delay_join seconds f args kwargs;
        delay_daemon seconds f args kwargs;
        delay_with_return_value seconds f args kwargs] ->
  (exists s : state,
      step (Act Caller) (init p t0 w0) = Some s
      /\ (exists u, unit0 s = Some u /\ interval_of (kind u) = Some seconds))
  /\ (forall ms (s : state),
        steps ms (init p t0 w0) = Some s ->
        raised s = None
        /\ (forall u, unit0 s = Some u -> interval_of (kind u) = Some seconds)
        /\ (forall a e, In (a, LExcepthook e) (log (conf s)) -> a = Unit 0))
  /\ (classify_timeout seconds = BadTimeout ->
      exists ms (s : state),
        steps ms (init p t0 w0) = Some s
        /\ In (Unit 0, LExcepthook TypeError) (log (conf s))
        /\ raised s = None).
Proof.
  intros Hp.
  assert (Hshape : exists m K,
             p = skeleton m K /\ interval_of K = Some seconds
             /\ (m = Capture -> initial_slot K <> None)).
  { destruct Hp as [<- | [<- | [<- | [<- | []]]]];
      [ exists Forget, (KTimer seconds f args kwargs)
      | exists Joined, (KTimer seconds f args kwargs)
      | exists Daemon, (KTimer seconds f args kwargs)
      | exists Capture,
          (KDelayedFunctionWithReturnValue seconds (f, args, kwargs)) ];
      (split; [reflexivity|]); split; try reflexivity; discriminate. }
  destruct Hshape as (m & K & -> & HK & Hcap). split; [|split].
  - eexists. split; [reflexivity|]. eexists; split; [reflexivity|exact HK].
  - intros ms s Hrun. apply sew_reach in Hrun. split; [|split].
    + destruct (raised s) as [x|] eqn:Hx; [|reflexivity].
      destruct (sew_inv_raised Hrun Hx) as [Hm Hs].
      exfalso; apply (Hcap Hm Hs).
    + intros u Hu. rewrite (sew_inv_kind Hrun Hu). exact HK.
    + intros a e Hin.
      destruct (sew_inv_events _ Hrun Hin)
        as [Hx | [E | [E | [[_ E] | [[_ E] | [_ [x E]]]]]]];
        try discriminate.
      unfold unit_event in Hx; cbn in Hx. destruct a as [|[|t]];
        cbn in Hx; try discriminate. reflexivity.
  - intros Hc. eapply bad_timeout_fault; eassumption.
Qed.

(** C10: the empty sentinel of the Result Slot is [None], a value a target
    may return. With [delay_with_return_value(d)], a target that returns
    [None] and a target that raises give the caller the same result: on all
    schedules both calls, once returned, returned [None], and neither raised;
    with a numeric delay both do return. *)
Theorem C10_None_result_hides_the_failure
    (f g : pyfun) (args : args_t) (kwargs : kwargs_t) (seconds : value)
    (t0 : Q) (w0 : World) (w1 : World) (e : exn) (w2 : World) :
  f args kwargs w0 = Returns VNone w1 ->
  g args kwargs w0 = Raises e w2 ->
  initial_slot (KDelayedFunctionWithReturnValue seconds (f, args, kwargs))
  = Some VNone
  /\ (forall ms (s : state) r ms' (s' : state) r',
        steps ms (init (delay_with_return_value seconds f args kwargs) t0 w0)
        = Some s ->
        returned s = Some r ->
        steps ms' (init (delay_with_return_value seconds g args kwargs) t0 w0)
        = Some s' ->
        returned s' = Some r' ->
        r = r' /\ r = VNone /\ raised s = None /\ raised s' = None)
  /\ (forall d, classify_timeout seconds = Seconds d ->
        (exists s : state,
            steps (delayed_schedule d)
              (init (delay_with_return_value seconds f args kwargs) t0 w0)
            = Some s /\ returned s = Some VNone)
        /\ (exists s' : state,
               steps (delayed_raising_schedule d)
                 (init (delay_with_return_value seconds g args kwargs) t0 w0)
               = Some s' /\ returned s' = Some VNone)).
Proof.
  intros Hf Hg. split; [reflexivity|]. split.
  - intros ms s r ms' s' r' Hrun Hr Hrun' Hr'.
    assert (r = VNone).
    { destruct (dwrv_returned _ _ _ _ _ _ _ Hrun Hr)
        as [[_ ?] | (d' & _ & _ & [Hret | [_ ?]])]; congruence. }
    assert (r' = VNone).
    { destruct (dwrv_returned _ _ _ _ _ _ _ Hrun' Hr')
        as [[_ ?] | (d' & _ & _ & [Hret | [_ ?]])]; congruence. }
    split; [congruence|]. split; [assumption|].
    unfold returned in Hr, Hr'. unfold raised.
    destruct (caller s); [|discriminate].
    destruct (caller s'); [|discriminate]. auto.
  - intros d Hc. split.
    + eapply dwrv_completes; eassumption.
    + eapply dwrv_completes_raising; eassumption.
Qed.

(** C6: across every operation of the library, that is for every caller
    that makes calls of the eight decorated kinds one after the other and on
    every schedule, each unit's Result Slot obeys one discipline. A unit of a
    capturing class is created with [None] in the slot; the slot is assigned
    at most once; while it has not been assigned it holds its initial value,
    and once assigned it holds the assigned value; and every assignment in
    the log was made by the unit itself, after the target of its Call
    Descriptor returned the value assigned. *)
Theorem C6_result_slot_is_written_once_by_its_unit
    (calls : list (@invocation World)) (t0 : Q) (w0 : World)
    (ms : list move) (s : state) (t : tid) (u : bg_unit) :
  steps ms (init (client calls) t0 w0) = Some s ->
  nth_error (pool (conf s)) t = Some u ->
  (capturing (kind u) = true -> initial_slot (kind u) = Some VNone)
  /\ (writes t (log (conf s)) <= 1)%nat
  /\ (writes t (log (conf s)) = 0%nat ->
      return_value u = initial_slot (kind u))
  /\ (writes t (log (conf s)) = 1%nat ->
      exists v, return_value u = Some v
                /\ In (Unit t, LWrite t v) (log (conf s)))
  /\ (forall l1 a v l2,
        log (conf s) = l1 ++ (a, LWrite t v) :: l2 ->
        a = Unit t
        /\ exists f args kwargs,
             descriptor (kind u) = (f, args, kwargs)
             /\ In (Unit t, LReturned f args kwargs v) l2).
Proof.
  intros Hrun Hu. split.
  - destruct (kind u); cbn; intros H; try discriminate; reflexivity.
  - eapply slot_discipline; eassumption.
Qed.

End Claims.

(* ------------------------------------------------------------------ *)
(** ** The claims on concrete calls *)

Section Defect.

Context {rt : Runtime}.

(** C1: the wrapper made by [thread_with_return_value] is documented to
    return the target's value. It blocks until the unit has finished, but
    for [square] and [7] it returns [None]: the [49] stays in the unit's
    [return_value] field, and on no schedule does the caller get it. *)
Theorem C1_thread_with_return_value_loses_the_result :
  (exists s : @state unit,
      steps twrv_schedule
        (init (thread_with_return_value square [VInt 7] []) 0%Q tt) = Some s
      /\ returned s = Some VNone
      /\ (exists u, unit0 s = Some u /\ return_value u = Some (VInt 49)
                    /\ status u = Finished))
  /\ (forall ms (s : @state unit),
        steps ms (init (thread_with_return_value square [VInt 7] []) 0%Q tt)
        = Some s ->
        returned s <> Some (VInt 49)).
Proof.
  split.
  - apply twrv_completes with (w1 := tt). reflexivity.
  - intros ms s Hrun Hr.
    pose proof (twrv_returns_None _ _ _ _ _ _ Hrun Hr) as E. discriminate E.
Qed.

End Defect.

Section OnPosix.

#[local] Existing Instance posix_main.

Lemma C2_witness :
  exists s : @state unit,
    steps twrv_schedule
      (init (thread_with_return_value square [VInt 7] []) 0%Q tt) = Some s
    /\ returned s = Some VNone
    /\ (exists u, unit0 s = Some u /\ return_value u = Some (VInt 49)
                  /\ status u = Finished).
Proof.
  exact (proj2 (proj2 (C2_thread_with_return_value_returns_None
                         square [VInt 7] [] 0%Q tt))
           (VInt 49) tt eq_refl).
Defined.

Lemma fifth_nonneg : (0 <= 1 # 5)%Q.
Proof. unfold Qle; simpl; lia. Qed.

Lemma fifth_accepted : (1 # 5 <= TIMEOUT_MAX)%Q.
Proof. unfold Qle; simpl; lia. Qed.

Lemma C3_witness :
  exists s : @state unit,
    steps (delayed_schedule (1 # 5))
      (init (delay_with_return_value (VFloat (1 # 5)) square [VInt 7] [])
         0%Q tt) = Some s
    /\ returned s = Some (VInt 49).
Proof.
  exact (proj1 (proj2 (C3_delay_with_return_value_waits_then_returns
                         square [VInt 7] [] (VFloat (1 # 5)) (1 # 5)%Q 0%Q tt
                         (VInt 49) tt eq_refl fifth_nonneg fifth_accepted
                         eq_refl))).
Defined.

(** C3 as stated fails at a delay above [TIMEOUT_MAX]. With
    [delay_with_return_value(10**10)(square)(7)] the delay is a number
    [>= 0] and [square(7)] returns [49], yet the timer's wait raises
    [OverflowError] in the unit's thread: there is a schedule on which the
    wrapper returns [None] while no time has passed, and on no schedule does
    it return [49]. *)
Lemma C3_counterexample :
  number_of (VInt 10000000000) = Some (inject_Z 10000000000)
  /\ (0 <= inject_Z 10000000000)%Q
  /\ square [VInt 7] [] tt = Returns (VInt 49) tt
  /\ (exists s : @state unit,
        steps (bad_timeout_schedule Capture)
          (init (delay_with_return_value (VInt 10000000000) square [VInt 7] [])
             0%Q tt) = Some s
        /\ returned s = Some VNone
        /\ (now (conf s) < 0 + inject_Z 10000000000)%Q
        /\ In (Unit 0, LExcepthook OverflowError) (log (conf s)))
  /\ (forall ms (s : @state unit),
        steps ms
          (init (delay_with_return_value (VInt 10000000000) square [VInt 7] [])
             0%Q tt) = Some s ->
        returned s <> Some (VInt 49)).
Proof.
  split; [reflexivity|]. split; [unfold Qle; simpl; lia|].
  split; [reflexivity|]. split.
  - eexists. split; [vm_compute; reflexivity|].
    split; [reflexivity|]. split; [reflexivity|]. cbn. auto.
  - intros ms s Hrun Hr.
    destruct (dwrv_returned _ _ _ _ _ _ _ Hrun Hr)
      as [[_ E] | (d & Hc & _)]; [discriminate E|].
    vm_compute in Hc. discriminate Hc.
Qed.

Lemma C4_witness :
  exists ms (s : @state unit),
    steps ms (init (thread_with_return_value faulty [] []) 0%Q tt) = Some s
    /\ returned s = Some VNone.
Proof.
  exact (proj2 (C4_capturing_wrappers_swallow_the_exception
                  faulty [] [] (VFloat (1 # 5)) 0%Q tt
                  "Exception"%string tt
                  (thread_with_return_value faulty [] [])
                  eq_refl (or_introl eq_refl))
           (1 # 5)%Q eq_refl).
Defined.

Lemma float_is_waited_for : wait_fails (VFloat (1 # 5)) = false.
Proof. reflexivity. Qed.

Lemma C5_witness :
  exists s : @state unit,
    steps (delayed_schedule (1 # 5))
      (init (delay_with_return_value (VFloat (1 # 5)) square [VInt 7] [])
         0%Q tt) = Some s
    /\ history (Unit 0) s = delayed_trace square [VInt 7] [] (VInt 49).
Proof.
  eexists. split; [vm_compute; reflexivity|].
  refine (proj2 (proj1 (proj2 (proj2
            (C5_capture_is_appended_to_the_timer_firing
               square [VInt 7] [] (VFloat (1 # 5)) 0%Q tt
               (VInt 49) tt float_is_waited_for eq_refl)))
            (delayed_schedule (1 # 5)) _ _) (VInt 49) _);
    vm_compute; reflexivity.
Defined.

Lemma C6_witness :
  exists (s : @state unit) u,
    steps (delayed_schedule (1 # 5))
      (init (client [mkInvocation (E_delay_with_return_value (VFloat (1 # 5)))
                       square [VInt 7] []]) 0%Q tt) = Some s
    /\ nth_error (pool (conf s)) 0 = Some u
    /\ (writes 0 (log (conf s)) <= 1)%nat.
Proof.
  eexists. eexists. split; [vm_compute; reflexivity|].
  split; [vm_compute; reflexivity|].
  refine (proj1 (proj2 (C6_result_slot_is_written_once_by_its_unit
                          [mkInvocation
                             (E_delay_with_return_value (VFloat (1 # 5)))
                             square [VInt 7] []]
                          0%Q tt (delayed_schedule (1 # 5)) _ 0%nat _ _ _)));
    vm_compute; reflexivity.
Defined.

Lemma C7_witness :
  exists ms (s : @state unit),
    Forall (fun mv => mv = Act Caller) ms
    /\ steps ms (init (thread square [VInt 7] []) 0%Q tt) = Some s
    /\ returned s = Some VNone
    /\ (exists u, unit0 s = Some u /\ status u = Started)
    /\ history (Unit 0) s = [].
Proof.
  exact (proj2 (C7_fire_and_forget_never_blocks
                  square [VInt 7] [] VNone 0%Q tt
                  (thread square [VInt 7] []) (or_introl eq_refl))).
Defined.

Lemma bump_terminates : bump [] [] 0%Z <> Diverges.
Proof. discriminate. Qed.

Lemma C8_witness :
  exists ms (s : @state Z),
    steps ms (init (delay_join (VFloat (1 # 5)) bump [] []) 0%Q 0%Z) = Some s
    /\ returned s = Some VNone.
Proof.
  exact (proj2 (C8_joined_wrappers_wait_for_the_target
                  bump [] [] (VFloat (1 # 5)) (1 # 5)%Q 0%Q 0%Z
                  (delay_join (VFloat (1 # 5)) bump [] [])
                  eq_refl fifth_accepted (or_intror (or_introl eq_refl)))
           bump_terminates).
Defined.

(** C8 as stated fails at a delay above [TIMEOUT_MAX]. With
    [delay_join(10**10)(bump)] the timer's wait raises [OverflowError] in the
    unit's thread, the unit ends and [join] returns: the wrapper has
    returned, and the counter [bump] would have incremented is still [0],
    no function having been called. *)
Lemma C8_counterexample :
  bump [] [] 0%Z = Returns VNone 1%Z
  /\ exists s : @state Z,
       steps (bad_timeout_schedule Joined)
         (init (delay_join (VInt 10000000000) bump [] []) 0%Q 0%Z) = Some s
       /\ returned s = Some VNone
       /\ world (conf s) = 0%Z
       /\ calls_in (log (conf s)) = 0%nat
       /\ In (Unit 0, LExcepthook OverflowError) (log (conf s)).
Proof.
  split; [reflexivity|].
  eexists. split; [vm_compute; reflexivity|].
  split; [reflexivity|]. split; [reflexivity|]. split; [reflexivity|].
  cbn. auto.
Qed.

Lemma C9_witness :
  exists ms (s : @state unit),
    steps ms (init (delay (VStr "soon") square [VInt 7] []) 0%Q tt) = Some s
    /\ In (Unit 0, LExcepthook TypeError) (log (conf s))
    /\ raised s = None.
Proof.
  exact (proj2 (proj2 (C9_seconds_is_passed_unchanged
                         square [VInt 7] [] (VStr "soon") 0%Q tt
                         (delay (VStr "soon") square [VInt 7] [])
                         (or_introl eq_refl)))
           eq_refl).
Defined.

Lemma C10_witness :
  (exists s : @state unit,
      steps (delayed_schedule (1 # 5))
        (init (delay_with_return_value (VFloat (1 # 5)) lambda_None [] [])
           0%Q tt) = Some s
      /\ returned s = Some VNone)
  /\ (exists s' : @state unit,
         steps (delayed_raising_schedule (1 # 5))
           (init (delay_with_return_value (VFloat (1 # 5)) faulty [] [])
              0%Q tt) = Some s'
         /\ returned s' = Some VNone).
Proof.
  exact (proj2 (proj2 (C10_None_result_hides_the_failure
                         lambda_None faulty [] [] (VFloat (1 # 5)) 0%Q
                         tt tt "Exception"%string tt eq_refl eq_refl))
           (1 # 5)%Q eq_refl).
Defined.

End OnPosix.

(* ------------------------------------------------------------------ *)
(** ** Further properties of the decorators *)

Set Implicit Arguments.

Section UnitFacts.

Context {World : Type} {rt : Runtime}.

Local Abbreviation pyfun := (pyfun World).
Local Abbreviation unit_kind := (unit_kind World).
Local Abbreviation py := (py World).
Local Abbreviation state := (@state World).
Local Abbreviation event := (@event World).

Lemma decorate_shape (e : entry) (f : pyfun) args kwargs :
  decorate e f args kwargs = skeleton (mode_of e) (kind_of e f args kwargs).
Proof. destruct e; reflexivity. Qed.

Lemma kind_of_descriptor (e : entry) (f : pyfun) args kwargs :
  descriptor (kind_of e f args kwargs) = (f, args, kwargs).
Proof. destruct e; reflexivity. Qed.

Lemma kind_of_interval (e : entry) (f : pyfun) args kwargs :
  interval_of (kind_of e f args kwargs) = seconds_of e.
Proof. destruct e; reflexivity. Qed.

Lemma decorate_reach (e : entry) (f : pyfun) args kwargs t0 w0 ms (s : state) :
  steps ms (init (decorate e f args kwargs) t0 w0) = Some s ->
  sew_inv (mode_of e) (kind_of e f args kwargs) t0 w0 s.
Proof. rewrite decorate_shape. apply sew_reach. Qed.

(** A state of a decorated call: before the start nothing has happened; from
    the start on the unit is in one of its phases. *)
Lemma start_log_caller m (K : unit_kind) e :
  In e (start_log m K) -> caller_made e.
Proof.
  unfold start_log, caller_made.
  destruct m; cbn; intuition (subst; reflexivity).
Qed.

Lemma sew_inv_cases m (K : unit_kind) t0 (w0 : World) (s : state) :
  sew_inv m K t0 w0 s ->
  (world (conf s) = w0
   /\ (forall u, unit0 s = Some u -> status u = Created)
   /\ (forall e, In e (log (conf s)) -> caller_made e)
   /\ returned s = None)
  \/ (exists st slot flag body l,
        phase t0 w0 (start_log m K) K st slot flag body (world (conf s)) l
          (now (conf s))
        /\ unit0 s = Some (mkUnit K slot (unit_daemon m) st flag body)
        /\ (forall e, In e (log (conf s)) -> In e l \/ caller_made e)
        /\ (forall e, In e l -> In e (log (conf s)))).
Proof.
  unfold caller_made.
  intros HI; destruct HI.
  - left. cbn. repeat split; try discriminate; contradiction.
  - left. cbn. split; [reflexivity|]. split; [|split].
    + intros u Hu; inversion Hu; reflexivity.
    + intros e [<-|[]]; split; reflexivity.
    + destruct m; reflexivity.
  - left. cbn. split; [reflexivity|]. split; [|split].
    + intros u Hu; inversion Hu; reflexivity.
    + intros e [<-|[<-|[]]]; split; reflexivity.
    + subst m; reflexivity.
  - right. do 5 eexists. split; [eassumption|]. split; [reflexivity|]. auto.
  - right. do 5 eexists. split; [eassumption|]. split; [reflexivity|].
    split; [intros e [<-|He]; auto | intros e He; right; exact He].
  - right. do 5 eexists. split; [eassumption|]. split; [reflexivity|].
    split; [intros e [<-|[<-|He]]; auto | intros e He; right; right; exact He].
  - right. do 5 eexists. split; [eassumption|]. split; [reflexivity|].
    split; [intros e [<-|He]; auto | intros e He; right; exact He].
Qed.

Lemma sew_inv_calls m (K : unit_kind) t0 (w0 : World) (s : state) :
  sew_inv m K t0 w0 s ->
  (calls_in (log (conf s))
   <= match K with KDelayedFunctionWithReturnValue _ _ => 2 | _ => 1 end)%nat.
Proof.
  intros HI; destruct HI;
    try (destruct K; cbn; lia);
    inversion H; subst; try destruct m; cbn; lia.
Qed.

Section PhaseFacts.

Variables (t0 : Q) (w0 : World) (l0 : list event).

(** The target runs at most once, on the arguments of the call and in the
    world of the call. *)
Lemma phase_world K st slot flag body w l now f a kw :
  phase t0 w0 l0 K st slot flag body w l now ->
  descriptor K = (f, a, kw) ->
  w = w0
  \/ (exists v, f a kw w0 = Returns v w)
  \/ (exists e, f a kw w0 = Raises e w).
Proof.
  intros HP Hd; destruct HP; cbn in Hd; inversion Hd; subst; eauto.
Qed.

(** Before the delay is over a timer has called nothing. *)
Lemma phase_before_deadline K st slot flag body w l now i d :
  phase t0 w0 l0 K st slot flag body w l now ->
  interval_of K = Some i -> classify_timeout i = Seconds d ->
  (now < t0 + d)%Q ->
  w = w0 /\ st = Started /\ (forall e, In e l -> is_call e = true -> In e l0).
Proof.
  intros HP Hi Hc Hlt; destruct HP; cbn in Hi; inversion Hi; subst;
    try congruence; same_outcome; try lra.
  all: split; [reflexivity|]; split; [reflexivity|]; intros e He Hcall;
    cbn in He; intuition (subst; discriminate).
Qed.

(** A finished timer with a numeric delay finished after the delay. *)
Lemma phase_finished_late K slot flag body w l now i d :
  phase t0 w0 l0 K Finished slot flag body w l now ->
  interval_of K = Some i -> classify_timeout i = Seconds d ->
  (t0 + d <= now)%Q.
Proof.
  intros HP Hi Hc; inversion HP; subst; cbn in Hi; inversion Hi; subst;
    try congruence; same_outcome; assumption.
Qed.

(** A timer built with [None] stays in its wait. *)
Lemma phase_forever K st slot flag body w l now i :
  phase t0 w0 l0 K st slot flag body w l now ->
  interval_of K = Some i -> classify_timeout i = Forever ->
  st = Started /\ w = w0 /\ l = l0.
Proof.
  intros HP Hi Hc; destruct HP; cbn in Hi; inversion Hi; subst;
    try congruence; auto.
Qed.

(** A timer whose wait raises, because its interval is not a number or is
    too large, calls nothing. *)
Lemma phase_failed_wait K st slot flag body w l now i :
  phase t0 w0 l0 K st slot flag body w l now ->
  interval_of K = Some i -> wait_fails i = true ->
  w = w0 /\ slot = initial_slot K
  /\ (forall e, In e l -> is_call e = true -> In e l0).
Proof.
  intros HP Hi Hc; destruct HP; cbn in Hi; inversion Hi; subst;
    wait_ok Hc.
  all: split; [reflexivity|]; split; [reflexivity|]; intros e He Hcall;
    cbn in He; intuition (subst; discriminate).
Qed.

(** A unit whose target runs forever does not finish, unless it is a timer
    whose wait raised before it called the target. *)
Lemma phase_diverges K st slot flag body w l now f a kw :
  phase t0 w0 l0 K st slot flag body w l now ->
  descriptor K = (f, a, kw) -> f a kw w0 = Diverges ->
  (forall i, interval_of K = Some i -> wait_fails i = false) ->
  st = Started.
Proof.
  intros HP Hd Hf Hi; destruct HP; cbn in Hd; inversion Hd; subst;
    try congruence; try reflexivity.
  all: exfalso; specialize (Hi _ eq_refl); wait_ok Hi.
Qed.

(** A finished capturing unit whose target returned holds the value. *)
Lemma phase_stored K slot flag body w l now f a kw v w1 :
  phase t0 w0 l0 K Finished slot flag body w l now ->
  capturing K = true -> descriptor K = (f, a, kw) ->
  f a kw w0 = Returns v w1 ->
  (forall i, interval_of K = Some i -> wait_fails i = false) ->
  slot = Some v /\ w = w1.
Proof.
  intros HP Hcap Hd Hf Hi; inversion HP; subst; cbn in Hcap, Hd;
    try discriminate; inversion Hd; subst; same_outcome; try congruence;
    auto.
  all: exfalso; specialize (Hi _ eq_refl); wait_ok Hi.
Qed.

End PhaseFacts.


(** While its unit has called nothing, a decorated call has changed nothing,
    and a wrapper that joins has not returned. *)
Lemma idle_unit m (K : unit_kind) t0 (w0 : World) (s : state) :
  sew_inv m K t0 w0 s ->
  (forall st slot flag body l,
      phase t0 w0 (start_log m K) K st slot flag body (world (conf s)) l
        (now (conf s)) ->
      world (conf s) = w0 /\ st = Started
      /\ (forall e, In e l -> is_call e = true -> In e (start_log m K))) ->
  world (conf s) = w0
  /\ (forall ev, In ev (log (conf s)) -> is_call ev = false)
  /\ (forall u, unit0 s = Some u -> status u <> Finished)
  /\ (m = Joined \/ m = Capture -> returned s = None).
Proof.
  intros HI Hidle.
  assert (Hpart : world (conf s) = w0
            /\ (forall ev, In ev (log (conf s)) -> is_call ev = false)
            /\ (forall u, unit0 s = Some u -> status u <> Finished)).
  { destruct (sew_inv_cases HI)
      as [(Hw & Hst & Hl & _)
         | (st & slot & flag & body & l & HP & Hu & Hl & _)].
    - split; [assumption|]. split.
      + intros ev Hev. apply Hl; assumption.
      + intros u Hu. rewrite (Hst u Hu). discriminate.
    - destruct (Hidle _ _ _ _ _ HP) as (Hw & -> & Hcall).
      split; [assumption|]. split.
      + intros ev Hev. destruct (is_call ev) eqn:E; [|reflexivity].
        destruct (Hl ev Hev) as [Hin | [_ Hn]]; [|congruence].
        destruct (start_log_caller (Hcall ev Hin E)); congruence.
      + intros u Hu'. rewrite Hu in Hu'. inversion Hu'; subst u.
        discriminate. }
  destruct Hpart as (Hw & Hcalls & Hfin). repeat split; auto.
  intros Hm. destruct (returned s) as [r|] eqn:Hr; [|reflexivity].
  destruct (sew_inv_joined HI Hm Hr) as (slot & flag & body & l & _ & Hu & _).
  exfalso. eapply Hfin; [exact Hu|reflexivity].
Qed.

(** A call whose timer fails in its wait has called nothing and changed
    nothing, and hands back nothing but [None]. *)
Lemma failed_wait_calls_nothing (e : entry) (f : pyfun) args kwargs seconds
    t0 (w0 : World) ms (s : state) :
  seconds_of e = Some seconds -> wait_fails seconds = true ->
  steps ms (init (decorate e f args kwargs) t0 w0) = Some s ->
  world (conf s) = w0
  /\ (forall ev, In ev (log (conf s)) -> is_call ev = false)
  /\ (forall r, returned s = Some r -> r = VNone).
Proof.
  intros He Hc Hrun. apply decorate_reach in Hrun.
  assert (Hi : interval_of (kind_of e f args kwargs) = Some seconds)
    by (rewrite kind_of_interval; exact He).
  destruct (sew_inv_cases Hrun)
    as [(Hw & Hst & Hl & Hr)
       | (st & slot & flag & body & l & HP & Hu & Hl & _)].
  - split; [assumption|]. split; [intros ev Hev; apply Hl; assumption|].
    intros r Hr'. congruence.
  - destruct (phase_failed_wait HP Hi Hc) as (Hw & Hslot & Hcall).
    split; [assumption|]. split.
    + intros ev Hev. destruct (is_call ev) eqn:E; [|reflexivity].
      destruct (Hl ev Hev) as [Hin | [_ Hn]]; [|congruence].
      destruct (start_log_caller (Hcall ev Hin E)); congruence.
    + intros r Hr.
      destruct (mode_of e) eqn:Hm;
        try (eapply sew_inv_returned; [exact Hrun|congruence|exact Hr]).
      destruct (sew_inv_joined Hrun (or_intror eq_refl) Hr)
        as (slot' & flag' & body' & l' & _ & Hu' & _ & Hcap & _).
      assert (Es : slot = slot') by congruence.
      specialize (Hcap eq_refl).
      assert (Hinit : initial_slot (kind_of e f args kwargs) = Some r)
        by congruence.
      destruct e; cbn in Hm, Hinit; try discriminate. congruence.
Qed.

Lemma joins_mode (e : entry) :
  joins e = true -> mode_of e = Joined \/ mode_of e = Capture.
Proof. unfold joins. destruct (mode_of e); try discriminate; auto. Qed.

Lemma deadline_at_once (now d : Q) :
  (d <= 0)%Q -> Qle_bool (deadline_after now d) now = true.
Proof.
  intros Hd. apply Qle_bool_iff. unfold deadline_after, nap.
  apply Qle_bool_iff in Hd. rewrite Hd. lra.
Qed.


Lemma phase_no_read m (K : unit_kind) t0 (w0 : World) st slot flag body w l
    now a t v :
  phase t0 w0 (start_log m K) K st slot flag body w l now ->
  ~ In (a, LRead t v) l.
Proof.
  intros HP Hin. apply phase_extends in HP.
  destruct (extends_in (a, LRead t v) HP Hin) as [Hu|Hs].
  - no_unit_event.
  - unfold start_log in Hs. destruct m; cbn in Hs; intuition discriminate.
Qed.

End UnitFacts.

Unset Implicit Arguments.

Section Extras.

Context {World : Type} {rt : Runtime}.

Local Abbreviation pyfun := (pyfun World).
Local Abbreviation py := (py World).
Local Abbreviation state := (@state World).

(** X1: no wrapper of the library raises into its caller. For each of the
    eight entry points, every target (returning, raising or running forever),
    every argument list and every value of [seconds], on every schedule the
    caller has not raised: [start] is called once on a fresh unit, [join]
    after [start], [daemon] is set before [start], and [return_value] is
    read only on a unit that has the attribute. *)
Theorem X1_no_wrapper_raises
    (e : entry) (f : pyfun) (args : args_t) (kwargs : kwargs_t)
    (t0 : Q) (w0 : World) (ms : list move) (s : state) :
  steps ms (init (decorate e f args kwargs) t0 w0) = Some s ->
  raised s = None.
Proof.
  intros Hrun. apply decorate_reach in Hrun.
  destruct (raised s) as [x|] eqn:Hx; [|reflexivity].
  destruct (sew_inv_raised Hrun Hx) as [Hm Hs].
  destruct e; cbn in Hm, Hs; discriminate.
Qed.

(** X2: the daemon flag. Whenever the unit of a decorated call has been
    started, its [daemon] attribute is [True] for [thread_daemon] and
    [delay_daemon], where it was set before [start]; the six other entry
    points never set it, and it is what the constructor took from the
    calling thread, [current_thread().daemon]. *)
Theorem X2_daemon_flag_is_set_before_start
    (e : entry) (f : pyfun) (args : args_t) (kwargs : kwargs_t)
    (t0 : Q) (w0 : World) (ms : list move) (s : state) (u : bg_unit) :
  steps ms (init (decorate e f args kwargs) t0 w0) = Some s ->
  unit0 s = Some u ->
  status u <> Created ->
  daemon u = (if is_daemon (mode_of e) then true else caller_daemon)
  /\ (is_daemon (mode_of e) = true ->
      In (Caller, LSetDaemon 0 true) (log (conf s)))
  /\ (is_daemon (mode_of e) = false ->
      forall a t b, ~ In (a, LSetDaemon t b) (log (conf s))).
Proof.
  intros Hrun Hu Hst. apply decorate_reach in Hrun.
  destruct (sew_inv_cases Hrun)
    as [(_ & Hc & _) | (st & slot & flag & body & l & HP & Hu' & _ & Hl)].
  - exfalso. apply Hst. apply Hc. exact Hu.
  - rewrite Hu in Hu'. inversion Hu'; subst u. split; [|split].
    + cbn. unfold unit_daemon. destruct (is_daemon (mode_of e)); reflexivity.
    + intros Hd. apply Hl. apply phase_extends in HP. clear - HP Hd.
      induction HP as [|x l Hx HP IH]; [|right; exact IH].
      unfold start_log. rewrite Hd. cbn. auto.
    + intros Hd a t b Hin.
      destruct (sew_inv_events _ Hrun Hin)
        as [Hx | [E | [E | [[Hm _] | [[_ E] | [_ [x E]]]]]]];
        try discriminate; try no_unit_event.
      rewrite Hm in Hd. discriminate.
Qed.

(** X3: the four delayed decorators do not call the target early. With a
    delay that is a number [d] the timed wait accepts, hence not above
    [TIMEOUT_MAX], as long as less than [d] seconds have passed since the
    call, the world is the one the call found, the log records no call of any
    function, the unit has not finished, and a wrapper that joins
    ([delay_join], [delay_with_return_value]) has not returned. *)
Theorem X3_nothing_happens_before_the_delay
    (e : entry) (f : pyfun) (args : args_t) (kwargs : kwargs_t)
    (seconds : value) (d : Q)
    (t0 : Q) (w0 : World) (ms : list move) (s : state) :
  seconds_of e = Some seconds ->
  classify_timeout seconds = Seconds d ->
  steps ms (init (decorate e f args kwargs) t0 w0) = Some s ->
  (now (conf s) < t0 + d)%Q ->
  world (conf s) = w0
  /\ (forall ev, In ev (log (conf s)) -> is_call ev = false)
  /\ (forall u, unit0 s = Some u -> status u <> Finished)
  /\ (joins e = true -> returned s = None).
Proof.
  intros He Hc Hrun Hlt. apply decorate_reach in Hrun.
  assert (Hi : interval_of (kind_of e f args kwargs) = Some seconds)
    by (rewrite kind_of_interval; exact He).
  destruct (idle_unit Hrun) as (Hw & Hcalls & Hfin & Hret).
  { intros st slot flag body l HP.
    exact (phase_before_deadline HP Hi Hc Hlt). }
  repeat split; auto. intros Hj. apply Hret, joins_mode, Hj.
Qed.

(** X4: the target runs at most once, on the arguments of the call. On every
    schedule of every entry point the world is the one the call found or the
    one the target made of it, by returning or by raising; and the log
    records at most one call of a function, two for
    [delay_with_return_value], whose timer also fires [lambda: None]. *)
Theorem X4_the_target_runs_at_most_once
    (e : entry) (f : pyfun) (args : args_t) (kwargs : kwargs_t)
    (t0 : Q) (w0 : World) (ms : list move) (s : state) :
  steps ms (init (decorate e f args kwargs) t0 w0) = Some s ->
  (world (conf s) = w0
   \/ (exists v, f args kwargs w0 = Returns v (world (conf s)))
   \/ (exists x, f args kwargs w0 = Raises x (world (conf s))))
  /\ (calls_in (log (conf s))
      <= match e with E_delay_with_return_value _ => 2 | _ => 1 end)%nat.
Proof.
  intros Hrun. apply decorate_reach in Hrun. split.
  - destruct (sew_inv_cases Hrun)
      as [(Hw & _) | (st & slot & flag & body & l & HP & _)]; [auto|].
    eapply phase_world; [eassumption|]. apply kind_of_descriptor.
  - apply sew_inv_calls in Hrun. destruct e; exact Hrun.
Qed.

(** X5: a delayed decorator given [None] as its delay never fires. The
    timer's wait has no limit and nothing sets its event: on every schedule
    the world is unchanged, no function has been called, the unit has not
    finished, and the wrappers made by [delay_join] and
    [delay_with_return_value] have not returned. *)
Theorem X5_a_None_delay_never_fires
    (e : entry) (f : pyfun) (args : args_t) (kwargs : kwargs_t)
    (t0 : Q) (w0 : World) (ms : list move) (s : state) :
  seconds_of e = Some VNone ->
  steps ms (init (decorate e f args kwargs) t0 w0) = Some s ->
  world (conf s) = w0
  /\ (forall ev, In ev (log (conf s)) -> is_call ev = false)
  /\ (forall u, unit0 s = Some u -> status u <> Finished)
  /\ (joins e = true -> returned s = None).
Proof.
  intros He Hrun. apply decorate_reach in Hrun.
  assert (Hi : interval_of (kind_of e f args kwargs) = Some VNone)
    by (rewrite kind_of_interval; exact He).
  destruct (idle_unit Hrun) as (Hw & Hcalls & Hfin & Hret).
  { intros st slot flag body l HP.
    destruct (phase_forever HP Hi eq_refl) as (-> & Hw & ->). auto. }
  repeat split; auto. intros Hj. apply Hret, joins_mode, Hj.
Qed.

(** X6: a delayed decorator given a delay that is neither a number nor
    [None] never calls the target. The timer's thread fails in its wait, so
    on every schedule the world is unchanged, no function has been called and
    a returned call returned [None]; and the wrapper does return, also the
    joining ones, although the target has not run. *)
Theorem X6_a_malformed_delay_skips_the_target
    (e : entry) (f : pyfun) (args : args_t) (kwargs : kwargs_t)
    (seconds : value) (t0 : Q) (w0 : World) :
  seconds_of e = Some seconds ->
  classify_timeout seconds = BadTimeout ->
  (forall ms (s : state),
      steps ms (init (decorate e f args kwargs) t0 w0) = Some s ->
      world (conf s) = w0
      /\ (forall ev, In ev (log (conf s)) -> is_call ev = false)
      /\ (forall r, returned s = Some r -> r = VNone))
  /\ (exists s : state,
        steps (bad_timeout_schedule (mode_of e))
          (init (decorate e f args kwargs) t0 w0) = Some s
        /\ returned s = Some VNone
        /\ world (conf s) = w0).
Proof.
  intros He Hc. split.
  - intros ms s Hrun.
    eapply failed_wait_calls_nothing; [exact He| |exact Hrun].
    unfold wait_fails. rewrite Hc. reflexivity.
  - destruct e; cbn in He; try discriminate; inversion He; subst;
      eexists;
      (split; [unfold bad_timeout_schedule, mode_of, decorate; exec_schedule;
               reflexivity|]); split; reflexivity.
Qed.

(** X7: a joining wrapper has no timeout. When the target runs forever,
    the wrappers made by [thread_join], [thread_with_return_value],
    [delay_join] and [delay_with_return_value] never return, unless the
    delay is one that makes the timer's wait raise (not a number, or above
    [TIMEOUT_MAX]): on every schedule the caller is still in its call and
    the unit has not finished. *)
Theorem X7_joining_wrappers_wait_forever
    (e : entry) (f : pyfun) (args : args_t) (kwargs : kwargs_t)
    (t0 : Q) (w0 : World) (ms : list move) (s : state) :
  joins e = true ->
  f args kwargs w0 = Diverges ->
  (forall seconds, seconds_of e = Some seconds ->
     wait_fails seconds = false) ->
  steps ms (init (decorate e f args kwargs) t0 w0) = Some s ->
  returned s = None
  /\ (forall u, unit0 s = Some u -> status u <> Finished).
Proof.
  intros Hj Hf Hsec Hrun. apply decorate_reach in Hrun.
  assert (Hfin : forall u, unit0 s = Some u -> status u <> Finished).
  { destruct (sew_inv_cases Hrun)
      as [(_ & Hst & _) | (st & slot & flag & body & l & HP & Hu & _)].
    - intros u Hu. rewrite (Hst u Hu). discriminate.
    - intros u Hu'. rewrite Hu in Hu'. inversion Hu'; subst u. cbn.
      erewrite (phase_diverges HP); [discriminate| |exact Hf|].
      + apply kind_of_descriptor.
      + intros i Hi. apply Hsec. rewrite <- kind_of_interval with (f := f)
          (args := args) (kwargs := kwargs). exact Hi. }
  split; [|exact Hfin].
  destruct (returned s) as [r|] eqn:Hr; [|reflexivity].
  destruct (sew_inv_joined Hrun (joins_mode e Hj) Hr)
    as (slot & flag & body & l & _ & Hu & _).
  exfalso. eapply Hfin; [exact Hu|reflexivity].
Qed.

(** X8: a wrapper that does not join still gets its target run. For
    [thread], [thread_daemon], [delay(d)] and [delay_daemon(d)] with a
    delay that is a number the timed wait accepts, hence not above
    [TIMEOUT_MAX], and a target that returns, the caller's own steps take it
    to its return with the world untouched, and from there the unit's steps
    (and [d] seconds, for the delayed ones) take the unit to its end, with
    the target's effect on the world done. *)
Theorem X8_the_forgotten_target_runs
    (e : entry) (f : pyfun) (args : args_t) (kwargs : kwargs_t) (d : Q)
    (t0 : Q) (w0 : World) (v : value) (w1 : World) :
  joins e = false ->
  (forall seconds, seconds_of e = Some seconds ->
     classify_timeout seconds = Seconds d) ->
  f args kwargs w0 = Returns v w1 ->
  exists (s1 : state) ms (s2 : state),
    steps (caller_schedule (mode_of e)) (init (decorate e f args kwargs) t0 w0)
    = Some s1
    /\ returned s1 = Some VNone
    /\ world (conf s1) = w0
    /\ steps ms s1 = Some s2
    /\ returned s2 = Some VNone
    /\ world (conf s2) = w1
    /\ (exists u, unit0 s2 = Some u /\ status u = Finished).
Proof.
  intros Hj Hsec Hf.
  destruct e as [ | | | |sec|sec|sec|sec]; try discriminate Hj;
    try (pose proof (Hsec sec eq_refl) as Hc);
    eexists;
    [ exists thread_unit_schedule | exists thread_unit_schedule
    | exists (timer_unit_schedule d) | exists (timer_unit_schedule d) ];
    eexists;
    (split; [unfold caller_schedule, mode_of, is_daemon, decorate;
             exec_schedule; reflexivity|]);
    (split; [reflexivity|]); (split; [reflexivity|]);
    (split; [unfold thread_unit_schedule, timer_unit_schedule;
             exec_schedule; reflexivity|]);
    (split; [reflexivity|]); (split; [reflexivity|]);
    eexists; split; reflexivity.
Qed.

(** X9: a delay that is zero or negative is no delay. With such a number
    the wrappers made by [delay_join] and [delay_with_return_value] return,
    the second with the target's value, on a schedule on which no time
    passes at all. *)
Theorem X9_a_nonpositive_delay_is_no_delay
    (f : pyfun) (args : args_t) (kwargs : kwargs_t) (seconds : value) (d : Q)
    (t0 : Q) (w0 : World) (v : value) (w1 : World) :
  classify_timeout seconds = Seconds d ->
  (d <= 0)%Q ->
  f args kwargs w0 = Returns v w1 ->
  (exists s : state,
      steps delayed_schedule_at_once
        (init (delay_with_return_value seconds f args kwargs) t0 w0) = Some s
      /\ returned s = Some v /\ now (conf s) = t0 /\ world (conf s) = w1)
  /\ (exists s : state,
        steps timer_schedule_at_once
          (init (delay_join seconds f args kwargs) t0 w0) = Some s
        /\ returned s = Some VNone /\ now (conf s) = t0
        /\ world (conf s) = w1)
  /\ forallb no_tick delayed_schedule_at_once = true
  /\ forallb no_tick timer_schedule_at_once = true.
Proof.
  intros Hc Hd Hf. pose proof (deadline_at_once t0 Hd) as Hdl.
  split; [|split; [|split; reflexivity]].
  - eexists. split.
    + unfold delayed_schedule_at_once. exec_schedule. reflexivity.
    + repeat split.
  - eexists. split.
    + unfold timer_schedule_at_once. exec_schedule. reflexivity.
    + repeat split.
Qed.

(** X10: the capture works on both subclasses. When the target returns [v],
    the finished unit of [thread_with_return_value] and of
    [delay_with_return_value] holds [v] in [return_value], on every
    schedule, unless the delay is one that makes the timer's wait raise (not
    a number, or above [TIMEOUT_MAX]); the first wrapper does not hand it
    back, but the unit has it. *)
Theorem X10_a_finished_capturing_unit_holds_the_value
    (e : entry) (f : pyfun) (args : args_t) (kwargs : kwargs_t)
    (t0 : Q) (w0 : World) (v : value) (w1 : World)
    (ms : list move) (s : state) (u : bg_unit) :
  capturing (kind_of e f args kwargs) = true ->
  (forall seconds, seconds_of e = Some seconds ->
     wait_fails seconds = false) ->
  f args kwargs w0 = Returns v w1 ->
  steps ms (init (decorate e f args kwargs) t0 w0) = Some s ->
  unit0 s = Some u ->
  status u = Finished ->
  return_value u = Some v /\ world (conf s) = w1.
Proof.
  intros Hcap Hsec Hf Hrun Hu Hst. apply decorate_reach in Hrun.
  destruct (sew_inv_cases Hrun)
    as [(_ & Hc & _) | (st & slot & flag & body & l & HP & Hu' & _)].
  - rewrite (Hc u Hu) in Hst. discriminate.
  - rewrite Hu in Hu'. inversion Hu'; subst u. cbn in Hst. subst st. cbn.
    eapply phase_stored; try eassumption.
    + apply kind_of_descriptor.
    + intros i Hi. apply Hsec. rewrite <- kind_of_interval with (f := f)
        (args := args) (kwargs := kwargs). exact Hi.
Qed.

(** X11: [return_value] is read only after the join. On every schedule of
    every entry point, a read of a Result Slot in the log is the caller's
    read in [delay_with_return_value]: it follows the caller's [join], the
    unit is finished, and the value read is the one the finished unit
    holds. *)
Theorem X11_the_slot_is_read_after_the_join
    (e : entry) (f : pyfun) (args : args_t) (kwargs : kwargs_t)
    (t0 : Q) (w0 : World) (ms : list move) (s : state)
    (a : actor) (t : tid) (v : value) :
  steps ms (init (decorate e f args kwargs) t0 w0) = Some s ->
  In (a, LRead t v) (log (conf s)) ->
  a = Caller /\ t = 0%nat
  /\ (exists seconds, e = E_delay_with_return_value seconds)
  /\ In (Caller, LJoin 0) (log (conf s))
  /\ (exists u, unit0 s = Some u /\ status u = Finished
                 /\ return_value u = Some v)
  /\ returned s = Some v.
Proof.
  intros Hrun Hin. apply decorate_reach in Hrun.
  destruct Hrun; cbn in Hin;
    try (intuition discriminate);
    try (exfalso; eapply phase_no_read; eassumption);
    try (destruct Hin as [Hin|Hin]; [discriminate|];
         exfalso; eapply phase_no_read; eassumption).
  destruct Hin as [Hin|[Hin|Hin]]; [|discriminate|
    exfalso; eapply phase_no_read; eassumption].
  inversion Hin; subst. split; [reflexivity|]. split; [reflexivity|].
  split; [destruct e; try discriminate; eauto|].
  split; [cbn; auto|]. split; [|reflexivity].
  eexists; split; [reflexivity|]. split; reflexivity.
Qed.

(** X15: a delayed decorator given a number above [TIMEOUT_MAX] never calls
    the target. The timed wait raises in the timer's thread, so on every
    schedule the world is unchanged, no function has been called and a
    returned call returned [None]; and the wrapper does return, at once, the
    joining ones after the unit has died of the exception. *)
Theorem X15_an_oversized_delay_skips_the_target
    (e : entry) (f : pyfun) (args : args_t) (kwargs : kwargs_t)
    (seconds : value) (d : Q) (t0 : Q) (w0 : World) :
  seconds_of e = Some seconds ->
  number_of seconds = Some d ->
  (0 < d)%Q ->
  (TIMEOUT_MAX < d)%Q ->
  (forall ms (s : state),
      steps ms (init (decorate e f args kwargs) t0 w0) = Some s ->
      world (conf s) = w0
      /\ (forall ev, In ev (log (conf s)) -> is_call ev = false)
      /\ (forall r, returned s = Some r -> r = VNone))
  /\ (exists s : state,
        steps (bad_timeout_schedule (mode_of e))
          (init (decorate e f args kwargs) t0 w0) = Some s
        /\ returned s = Some VNone
        /\ world (conf s) = w0
        /\ now (conf s) = t0
        /\ (joins e = true ->
            exists x, In (Unit 0, LExcepthook x) (log (conf s)))).
Proof.
  intros He Hn H0 Hmax.
  pose proof (classify_overflow _ Hn H0 Hmax) as Hc. split.
  - intros ms s Hrun.
    eapply failed_wait_calls_nothing; [exact He| |exact Hrun].
    unfold wait_fails. rewrite Hc. reflexivity.
  - destruct e; cbn in He; try discriminate; inversion He; subst;
      eexists;
      (split; [unfold bad_timeout_schedule, mode_of, decorate; exec_schedule;
               reflexivity|]);
      (split; [reflexivity|]); (split; [reflexivity|]);
      (split; [reflexivity|]); cbn; intros Hj; try discriminate Hj; eauto.
Qed.

End Extras.

Set Implicit Arguments.

Section Composition.

Context {World : Type} {rt : Runtime}.

Local Abbreviation pyfun := (pyfun World).
Local Abbreviation unit_kind := (unit_kind World).
Local Abbreviation py := (py World).
Local Abbreviation state := (@state World).
Local Abbreviation bg_unit := (@bg_unit World).

Lemma evolves_refl (pool : list bg_unit) : evolves pool pool.
Proof. intros t u Hu. exists u. tauto. Qed.

Lemma evolves_trans (p1 p2 p3 : list bg_unit) :
  evolves p1 p2 -> evolves p2 p3 -> evolves p1 p3.
Proof.
  intros H12 H23 t u Hu.
  destruct (H12 _ _ Hu) as (u2 & Hu2 & Hs2 & Hr2).
  destruct (H23 _ _ Hu2) as (u3 & Hu3 & Hs3 & Hr3).
  exists u3. split; [assumption|]. split; [tauto|auto].
Qed.

Lemma evolves_set_nth (pool : list bg_unit) t u u' :
  nth_error pool t = Some u ->
  (status u = Created <-> status u' = Created) ->
  (return_value u <> None -> return_value u' <> None) ->
  evolves pool (set_nth t u' pool).
Proof.
  intros Hu Hs Hr t1 u1 H1. destruct (Nat.eq_dec t t1) as [<-|Hne].
  - exists u'. split; [eapply nth_error_set_nth_eq; eassumption|].
    rewrite Hu in H1; inversion H1; subst u1. auto.
  - exists u1. rewrite nth_error_set_nth_neq by assumption. tauto.
Qed.

Lemma evolves_snoc (pool : list bg_unit) u : evolves pool (pool ++ [u]).
Proof.
  intros t u1 H1. exists u1. split; [|tauto].
  rewrite nth_error_app1; [assumption|]. apply nth_error_Some; congruence.
Qed.

Lemma caller_stage_evolves (pool pool' : list bg_unit) rest cs :
  caller_stage pool rest cs -> evolves pool pool' ->
  caller_stage pool' rest cs.
Proof.
  intros Hst Hev; destruct Hst as [rest | m t u rest Hu Hs Hr | t u rest Hu Hs
                                   | m t u rest Hm Hu Hs Hr | t u rest Hu Hr];
    try (destruct (Hev _ _ Hu) as (u' & Hu' & Hs' & Hr')).
  - apply stage_idle.
  - eapply stage_built; eauto. tauto.
  - eapply stage_daemon; eauto. tauto.
  - eapply stage_joining; eauto. tauto.
  - eapply stage_reading; eauto.
Qed.

Lemma kinds_set_nth (pool : list bg_unit) t u u' :
  nth_error pool t = Some u -> kind u' = kind u ->
  kinds (set_nth t u' pool) = kinds pool.
Proof.
  unfold kinds. revert t; induction pool as [|x pool IH]; intros [|t] Hu Hk;
    simpl in *; try discriminate.
  - inversion Hu; subst. now rewrite Hk.
  - f_equal. apply IH; assumption.
Qed.

Lemma kinds_snoc (pool : list bg_unit) u :
  kinds (pool ++ [u]) = kinds pool ++ [kind u].
Proof. unfold kinds. now rewrite map_app. Qed.

Ltac keeps_unit Hu Hst :=
  first
    [ apply evolves_refl
    | eapply evolves_set_nth;
      [ exact Hu
      | cbn; rewrite Hst; split; intros; discriminate
      | cbn; intros; first [assumption | discriminate] ] ].

(** A step of a unit whose run body is the library's leaves every unit on
    its side of [Created] and with its Result Slot. *)
Lemma step_unit_evolves t (s s' : state) :
  step_unit t s = Some s' -> conf_inv (conf s) ->
  evolves (pool (conf s)) (pool (conf s')).
Proof.
  unfold step_unit, conf_inv. destruct s as [cs c]; cbn.
  destruct (nth_error (pool c) t) as [u|] eqn:Hu; [|discriminate].
  destruct (status u) eqn:Hst; try discriminate.
  intros H [_ HU].
  destruct (HU _ _ Hu) as (last & may & Hrc & _).
  remember (body u) as p eqn:Hb.
  destruct Hrc as [ last may | f a kw k last may Hcd Hk | f a kw k last may Hk
                  | v k Hk | t' tm dl k last may Hk
                  | t' k last may Hk | t' k last may Hk ];
    cbn in H.
  - inversion H; subst; cbn. keeps_unit Hu Hst.
  - destruct (f a kw (world c)); [| |discriminate];
      cbn in H; rewrite Hu in H; inversion H; subst; cbn; keeps_unit Hu Hst.
  - destruct (f a kw (world c)); [| |discriminate];
      cbn in H; rewrite Hu in H; inversion H; subst; cbn; keeps_unit Hu Hst.
  - rewrite Hu in H; cbn in H.
    erewrite nth_error_set_nth_eq in H by eassumption. cbn in H.
    rewrite set_nth_set_nth in H. inversion H; subst; cbn.
    keeps_unit Hu Hst.
  - destruct (nth_error (pool c) t') as [u'|];
      [destruct (finished_flag u');
       [|destruct (classify_timeout tm);
         [|destruct dl as [dl|]; [destruct (Qle_bool dl (now c))|]| |]]|];
      cbn in H; try rewrite Hu in H; inversion H; subst; cbn;
      keeps_unit Hu Hst.
  - destruct (nth_error (pool c) t') as [u'|];
      cbn in H; try rewrite Hu in H; inversion H; subst; cbn;
      keeps_unit Hu Hst.
  - destruct (nth_error (pool c) t') as [u'|] eqn:Hu'; cbn in H.
    + destruct (Nat.eq_dec t' t) as [->|Hne].
      * rewrite Hu in Hu'; inversion Hu'; subst u'.
        erewrite nth_error_set_nth_eq in H by eassumption. cbn in H.
        rewrite set_nth_set_nth in H. inversion H; subst; cbn.
        keeps_unit Hu Hst.
      * rewrite nth_error_set_nth_neq in H by assumption.
        rewrite Hu in H. inversion H; subst; cbn.
        eapply evolves_trans; cycle 1.
        -- eapply evolves_set_nth with (t := t) (u := u).
           ++ rewrite nth_error_set_nth_neq by assumption. exact Hu.
           ++ cbn. rewrite Hst. split; intros; discriminate.
           ++ cbn. intros HH; exact HH.
        -- eapply evolves_set_nth with (t := t') (u := u'); [exact Hu'| |].
           ++ cbn. split; intros HH; exact HH.
           ++ cbn. intros HH; exact HH.
    + rewrite Hu in H. inversion H; subst; cbn. keeps_unit Hu Hst.
Qed.


Ltac same_kinds_after Hu :=
  first
    [ reflexivity
    | erewrite kinds_set_nth; [reflexivity | exact Hu | reflexivity] ].

(** A step of a unit changes the class of no unit. *)
Lemma step_unit_kinds t (s s' : state) :
  step_unit t s = Some s' -> conf_inv (conf s) ->
  kinds (pool (conf s')) = kinds (pool (conf s)).
Proof.
  unfold step_unit, conf_inv. destruct s as [cs c]; cbn.
  destruct (nth_error (pool c) t) as [u|] eqn:Hu; [|discriminate].
  destruct (status u) eqn:Hst; try discriminate.
  intros H [_ HU].
  destruct (HU _ _ Hu) as (last & may & Hrc & _).
  remember (body u) as p eqn:Hb.
  destruct Hrc as [ last may | f a kw k last may Hcd Hk | f a kw k last may Hk
                  | v k Hk | t' tm dl k last may Hk
                  | t' k last may Hk | t' k last may Hk ];
    cbn in H.
  - inversion H; subst; cbn. same_kinds_after Hu.
  - destruct (f a kw (world c)); [| |discriminate];
      cbn in H; rewrite Hu in H; inversion H; subst; cbn;
      same_kinds_after Hu.
  - destruct (f a kw (world c)); [| |discriminate];
      cbn in H; rewrite Hu in H; inversion H; subst; cbn;
      same_kinds_after Hu.
  - rewrite Hu in H; cbn in H.
    erewrite nth_error_set_nth_eq in H by eassumption. cbn in H.
    rewrite set_nth_set_nth in H. inversion H; subst; cbn.
    same_kinds_after Hu.
  - destruct (nth_error (pool c) t') as [u'|];
      [destruct (finished_flag u');
       [|destruct (classify_timeout tm);
         [|destruct dl as [dl|]; [destruct (Qle_bool dl (now c))|]| |]]|];
      cbn in H; try rewrite Hu in H; inversion H; subst; cbn;
      same_kinds_after Hu.
  - destruct (nth_error (pool c) t') as [u'|];
      cbn in H; try rewrite Hu in H; inversion H; subst; cbn;
      same_kinds_after Hu.
  - destruct (nth_error (pool c) t') as [u'|] eqn:Hu'; cbn in H.
    + destruct (Nat.eq_dec t' t) as [->|Hne].
      * rewrite Hu in Hu'; inversion Hu'; subst u'.
        erewrite nth_error_set_nth_eq in H by eassumption. cbn in H.
        rewrite set_nth_set_nth in H. inversion H; subst; cbn.
        same_kinds_after Hu.
      * rewrite nth_error_set_nth_neq in H by assumption.
        rewrite Hu in H. inversion H; subst; cbn.
        erewrite kinds_set_nth;
          [ | rewrite nth_error_set_nth_neq by assumption; exact Hu
            | reflexivity ].
        erewrite kinds_set_nth; [reflexivity | exact Hu' | reflexivity].
    + rewrite Hu in H. inversion H; subst; cbn. same_kinds_after Hu.
Qed.

Lemma client_cons (c : @invocation World) rest :
  client (c :: rest)
  = New (kind_of (via c) (target c) (positional c) (keywords c))
      (fun t => _ <- after_new (mode_of (via c)) t ;; client rest).
Proof. cbn [client]. rewrite decorate_shape. reflexivity. Qed.

Lemma nth_error_last (A : Type) (l : list A) a :
  nth_error (l ++ [a]) (List.length l) = Some a.
Proof. rewrite nth_error_app2, Nat.sub_diag; [reflexivity|lia]. Qed.

(** A step of the caller of [client] takes it to its next stage; it never
    fails, and it builds the unit of the next call when it begins one. *)
Lemma step_caller_stage (s s' : state) rest :
  step_caller s = Some s' ->
  caller_stage (pool (conf s)) rest (caller s) ->
  exists rest',
    caller_stage (pool (conf s')) rest' (caller s')
    /\ kinds (pool (conf s')) ++ planned rest'
       = kinds (pool (conf s)) ++ planned rest.
Proof.
  unfold step_caller. destruct s as [cs c]; cbn. intros H Hst.
  destruct Hst as [rest | m t u rest Hu Hs Hr | t u rest Hu Hs
                  | m t u rest Hm Hu Hs Hr | t u rest Hu Hr].
  - destruct rest as [|c0 rest]; [discriminate|].
    rewrite client_cons in H. cbn in H. inversion H; subst; cbn.
    exists rest. split.
    + eapply stage_built.
      * apply nth_error_last.
      * reflexivity.
      * cbn. destruct (via c0); cbn; discriminate.
    + rewrite kinds_snoc, <- app_assoc. reflexivity.
  - exists rest.
    destruct m; cbn in H; rewrite Hu in H; cbn in H; rewrite Hs in H;
      inversion H; subst; cbn;
      (split; [|erewrite kinds_set_nth; [reflexivity|exact Hu|reflexivity]]).
    + apply stage_idle.
    + eapply stage_daemon;
        [eapply nth_error_set_nth_eq; eassumption | reflexivity].
    + eapply stage_joining with (m := Joined);
        [auto | eapply nth_error_set_nth_eq; eassumption
        | discriminate | discriminate].
    + eapply stage_joining with (m := Capture);
        [auto | eapply nth_error_set_nth_eq; eassumption
        | discriminate | cbn; auto].
  - exists rest. cbn in H; rewrite Hu in H; cbn in H; rewrite Hs in H;
      inversion H; subst; cbn.
    split; [apply stage_idle|].
    erewrite kinds_set_nth; [reflexivity|exact Hu|reflexivity].
  - exists rest.
    destruct Hm; subst m; cbn in H; rewrite Hu in H; cbn in H;
      destruct (status u); try congruence; try discriminate;
      inversion H; subst; cbn; (split; [|reflexivity]).
    + apply stage_idle.
    + eapply stage_reading; eauto.
  - exists rest. cbn in H; rewrite Hu in H; cbn in H.
    destruct (return_value u); [|congruence].
    inversion H; subst; cbn. split; [apply stage_idle|reflexivity].
Qed.

Lemma step_on_plan calls mv (s s' : state) :
  step mv s = Some s' ->
  (caller_inv (caller s) /\ conf_inv (conf s)) /\ on_plan calls s ->
  (caller_inv (caller s') /\ conf_inv (conf s')) /\ on_plan calls s'.
Proof.
  intros H [HI (rest & Hst & Hplan)]. split; [eapply step_inv; eassumption|].
  destruct mv as [dt | [ | t]]; simpl in H.
  - unfold step_tick in H. destruct (Qle_bool 0 dt); inversion H; subst.
    exists rest. split; assumption.
  - destruct (step_caller_stage _ H Hst) as (rest' & Hst' & Hk).
    exists rest'. split; [assumption|]. rewrite Hk. exact Hplan.
  - destruct HI as [_ HP].
    destruct (step_unit_inv _ _ H HP) as [Hcs _].
    exists rest. split.
    + rewrite Hcs. eapply caller_stage_evolves; [eassumption|].
      eapply step_unit_evolves; eassumption.
    + rewrite (step_unit_kinds _ _ H HP). exact Hplan.
Qed.

Lemma client_on_plan (calls : list (@invocation World)) t0 w0 ms (s : state) :
  steps ms (init (client calls) t0 w0) = Some s -> on_plan calls s.
Proof.
  intros Hrun.
  apply (steps_invariant
           (fun s => (caller_inv (caller s) /\ conf_inv (conf s))
                     /\ on_plan calls s)) in Hrun.
  - apply Hrun.
  - intros mv s1 s2 HI Hs. eapply step_on_plan; eassumption.
  - split.
    + split; cbn.
      * apply client_client_code.
      * split; [constructor|]. intros t u Hu. destruct t; discriminate.
    + exists calls. split; [apply stage_idle|reflexivity].
Qed.

End Composition.

Unset Implicit Arguments.

Section Sequences.

Context {World : Type} {rt : Runtime}.

Local Abbreviation pyfun := (pyfun World).
Local Abbreviation py := (py World).
Local Abbreviation state := (@state World).

(** X12: no sequence of decorated calls raises into the caller. Whatever
    calls a caller makes one after the other, through whichever of the eight
    entry points, with whatever targets, arguments and delays, and however
    the units of earlier calls are still running, on every schedule the
    caller has not raised. *)
Theorem X12_no_sequence_of_calls_raises
    (calls : list (@invocation World)) (t0 : Q) (w0 : World)
    (ms : list move) (s : state) :
  steps ms (init (client calls) t0 w0) = Some s ->
  raised s = None.
Proof.
  intros Hrun. destruct (client_on_plan _ _ _ _ Hrun) as (rest & Hst & _).
  unfold raised. remember (caller s) as cs eqn:E.
  destruct Hst; reflexivity.
Qed.

(** X13: [join] is the only place where a caller of the library waits. In
    a run of any sequence of decorated calls, a caller that cannot take a
    step has made all its calls and returned, or it is in the [join] of a
    unit that was started and has not finished. *)
Theorem X13_the_caller_waits_only_in_join
    (calls : list (@invocation World)) (t0 : Q) (w0 : World)
    (ms : list move) (s : state) :
  steps ms (init (client calls) t0 w0) = Some s ->
  step (Act Caller) s = None ->
  returned s = Some VNone
  \/ (exists t k u,
        caller s = Run (Join t k)
        /\ nth_error (pool (conf s)) t = Some u
        /\ status u = Started).
Proof.
  intros Hrun Hstuck. destruct (client_on_plan _ _ _ _ Hrun) as (rest & Hst & _).
  unfold step, step_caller in Hstuck. destruct s as [cs c]; cbn in *.
  destruct Hst as [rest | m t u rest Hu Hs Hr | t u rest Hu Hs
                  | m t u rest Hm Hu Hs Hr | t u rest Hu Hr].
  - destruct rest as [|c0 rest]; [left; reflexivity|].
    rewrite client_cons in Hstuck. cbn in Hstuck. discriminate.
  - destruct m; cbn in Hstuck; rewrite Hu in Hstuck; cbn in Hstuck;
      rewrite Hs in Hstuck; discriminate.
  - cbn in Hstuck; rewrite Hu in Hstuck; cbn in Hstuck;
      rewrite Hs in Hstuck; discriminate.
  - right. destruct Hm; subst m; cbn in Hstuck; rewrite Hu in Hstuck;
      cbn in Hstuck; destruct (status u) eqn:E; try discriminate;
      try congruence; do 3 eexists; (split; [reflexivity|]); eauto.
  - cbn in Hstuck; rewrite Hu in Hstuck; cbn in Hstuck.
    destruct (return_value u); [discriminate|congruence].
Qed.

(** X14: one unit for each call, none reused. In a run of any sequence of
    decorated calls, the [t]-th unit of the pool was built by the [t]-th
    call, of the class of its entry point and with its function and
    arguments as Call Descriptor; there are never more units than calls, and
    when the caller has returned there are as many. *)
Theorem X14_each_call_builds_its_own_unit
    (calls : list (@invocation World)) (t0 : Q) (w0 : World)
    (ms : list move) (s : state) :
  steps ms (init (client calls) t0 w0) = Some s ->
  (forall t u,
      nth_error (pool (conf s)) t = Some u ->
      exists c,
        nth_error calls t = Some c
        /\ kind u = kind_of (via c) (target c) (positional c) (keywords c)
        /\ descriptor (kind u) = (target c, positional c, keywords c))
  /\ (List.length (pool (conf s)) <= List.length calls)%nat
  /\ (forall r, returned s = Some r ->
        r = VNone /\ List.length (pool (conf s)) = List.length calls).
Proof.
  intros Hrun.
  destruct (client_on_plan _ _ _ _ Hrun) as (rest & Hst & Hplan).
  assert (Hlen : (List.length (pool (conf s)) + List.length rest
                  = List.length calls)%nat).
  { apply (f_equal (@List.length _)) in Hplan.
    unfold kinds, planned in Hplan.
    rewrite length_app, !length_map in Hplan. exact Hplan. }
  split; [|split].
  - intros t u Hu.
    assert (Hk : nth_error (planned calls) t = Some (kind u)).
    { rewrite <- Hplan. rewrite nth_error_app1.
      - unfold kinds. apply map_nth_error. exact Hu.
      - unfold kinds. rewrite length_map. apply nth_error_Some. congruence. }
    unfold planned in Hk. rewrite nth_error_map in Hk.
    destruct (nth_error calls t) as [c|]; [|discriminate].
    cbn in Hk. inversion Hk as [Hk']. exists c. split; [reflexivity|].
    split; [reflexivity|]. apply kind_of_descriptor.
  - lia.
  - intros r Hr. unfold returned in Hr. remember (caller s) as cs eqn:E.
    destruct Hst as [rest | m t u rest Hu Hs Hr' | t u rest Hu Hs
                    | m t u rest Hm Hu Hs Hr' | t u rest Hu Hr'].
    + destruct rest as [|c0 rest].
      * cbn in Hr. inversion Hr. cbn in Hlen. split; [reflexivity|lia].
      * rewrite client_cons in Hr. discriminate.
    + destruct m; discriminate.
    + discriminate.
    + destruct Hm; subst m; discriminate.
    + discriminate.
Qed.

End Sequences.

(** *** The further properties on concrete calls *)

Section MoreOnPosix.

#[local] Existing Instance posix_main.

Example two_calls_run :
  option_map
    (fun s : @state unit =>
       (returned s, raised s,
        map (fun u => (status u, return_value u)) (pool (conf s))))
    (steps two_calls_schedule (init (client two_calls) 0%Q tt))
  = Some (Some VNone, None,
          [(Finished, None); (Finished, Some (VInt 49))]).
Proof. vm_compute. reflexivity. Qed.

Lemma X1_witness :
  exists s : @state unit,
    steps raising_schedule (init (decorate E_thread_join faulty [] []) 0%Q tt)
    = Some s
    /\ raised s = None.
Proof.
  eexists. split; [vm_compute; reflexivity|].
  apply (X1_no_wrapper_raises E_thread_join faulty [] [] 0%Q tt
           raising_schedule).
  vm_compute; reflexivity.
Defined.

Lemma X2_witness :
  exists (s : @state unit) u,
    steps (rt := posix_daemon) thread_schedule
      (init (decorate E_thread_join square [VInt 7] []) 0%Q tt) = Some s
    /\ unit0 s = Some u
    /\ status u <> Created
    /\ daemon u = true
    /\ (forall a t b, ~ In (a, LSetDaemon t b) (log (conf s))).
Proof.
  eexists. eexists. split; [vm_compute; reflexivity|].
  split; [vm_compute; reflexivity|]. split; [discriminate|].
  refine ((fun H => conj (proj1 H) (proj2 (proj2 H) eq_refl))
            (X2_daemon_flag_is_set_before_start (rt := posix_daemon)
               E_thread_join square [VInt 7] [] 0%Q tt thread_schedule
               _ _ _ _ _));
    [vm_compute; reflexivity | vm_compute; reflexivity | discriminate].
Defined.

Lemma X3_witness :
  exists s : @state Z,
    steps [Act Caller; Act Caller; Act (Unit 0)]
      (init (decorate (E_delay_join (VFloat (1 # 5))) bump [] []) 0%Q 0%Z)
    = Some s
    /\ (now (conf s) < 0 + (1 # 5))%Q
    /\ world (conf s) = 0%Z.
Proof.
  eexists. split; [vm_compute; reflexivity|]. split; [reflexivity|].
  refine (proj1 (X3_nothing_happens_before_the_delay
                   (E_delay_join (VFloat (1 # 5))) bump [] []
                   (VFloat (1 # 5)) (1 # 5)%Q 0%Q 0%Z
                   [Act Caller; Act Caller; Act (Unit 0)] _
                   eq_refl eq_refl _ _));
    [vm_compute; reflexivity | reflexivity].
Defined.

Lemma X4_witness :
  exists s : @state Z,
    steps thread_schedule (init (decorate E_thread_join bump [] []) 0%Q 0%Z)
    = Some s
    /\ (calls_in (log (conf s)) <= 1)%nat.
Proof.
  eexists. split; [vm_compute; reflexivity|].
  refine (proj2 (X4_the_target_runs_at_most_once
                   E_thread_join bump [] [] 0%Q 0%Z thread_schedule _ _)).
  vm_compute; reflexivity.
Defined.

Lemma X5_witness :
  exists s : @state Z,
    steps [Act Caller; Act Caller]
      (init (decorate (E_delay_join VNone) bump [] []) 0%Q 0%Z) = Some s
    /\ world (conf s) = 0%Z.
Proof.
  eexists. split; [vm_compute; reflexivity|].
  refine (proj1 (X5_a_None_delay_never_fires
                   (E_delay_join VNone) bump [] [] 0%Q 0%Z
                   [Act Caller; Act Caller] _ eq_refl _)).
  vm_compute; reflexivity.
Defined.

Lemma X6_witness :
  exists s : @state Z,
    steps (bad_timeout_schedule Joined)
      (init (decorate (E_delay_join (VStr "soon")) bump [] []) 0%Q 0%Z)
    = Some s
    /\ returned s = Some VNone
    /\ world (conf s) = 0%Z.
Proof.
  exact (proj2 (X6_a_malformed_delay_skips_the_target
                  (E_delay_join (VStr "soon")) bump [] [] (VStr "soon")
                  0%Q 0%Z eq_refl eq_refl)).
Defined.

Lemma X7_witness :
  exists s : @state unit,
    steps [Act Caller; Act Caller]
      (init (decorate E_thread_join forever [] []) 0%Q tt) = Some s
    /\ returned s = None.
Proof.
  eexists. split; [vm_compute; reflexivity|].
  refine (proj1 (X7_joining_wrappers_wait_forever
                   E_thread_join forever [] [] 0%Q tt
                   [Act Caller; Act Caller] _ eq_refl eq_refl _ _));
    [intros seconds E; discriminate E | vm_compute; reflexivity].
Defined.

Lemma X8_witness :
  exists (s1 : @state Z) ms (s2 : @state Z),
    steps (caller_schedule Forget)
      (init (decorate (E_delay (VFloat (1 # 5))) bump [] []) 0%Q 0%Z)
    = Some s1
    /\ returned s1 = Some VNone
    /\ world (conf s1) = 0%Z
    /\ steps ms s1 = Some s2
    /\ returned s2 = Some VNone
    /\ world (conf s2) = 1%Z
    /\ (exists u, unit0 s2 = Some u /\ status u = Finished).
Proof.
  apply (X8_the_forgotten_target_runs
           (E_delay (VFloat (1 # 5))) bump [] [] (1 # 5)%Q 0%Q 0%Z VNone 1%Z).
  - reflexivity.
  - intros seconds E. inversion E. reflexivity.
  - reflexivity.
Defined.

Lemma minus_two_nonpositive : (inject_Z (-2) <= 0)%Q.
Proof. unfold Qle; simpl; lia. Qed.

Lemma X9_witness :
  exists s : @state unit,
    steps delayed_schedule_at_once
      (init (delay_with_return_value (VInt (-2)) square [VInt 7] []) 0%Q tt)
    = Some s
    /\ returned s = Some (VInt 49) /\ now (conf s) = 0%Q
    /\ world (conf s) = tt.
Proof.
  exact (proj1 (X9_a_nonpositive_delay_is_no_delay
                  square [VInt 7] [] (VInt (-2)) (inject_Z (-2)) 0%Q tt
                  (VInt 49) tt eq_refl minus_two_nonpositive eq_refl)).
Defined.

Lemma X10_witness :
  exists (s : @state unit) u,
    steps twrv_schedule
      (init (decorate E_thread_with_return_value square [VInt 7] []) 0%Q tt)
    = Some s
    /\ unit0 s = Some u
    /\ status u = Finished
    /\ return_value u = Some (VInt 49).
Proof.
  eexists. eexists. split; [vm_compute; reflexivity|].
  split; [vm_compute; reflexivity|]. split; [reflexivity|].
  refine (proj1 (X10_a_finished_capturing_unit_holds_the_value
                   E_thread_with_return_value square [VInt 7] [] 0%Q tt
                   (VInt 49) tt twrv_schedule _ _ eq_refl _ eq_refl _ _ _));
    [ intros seconds E; discriminate E | vm_compute; reflexivity
    | vm_compute; reflexivity | reflexivity ].
Defined.

Lemma X11_witness :
  exists s : @state unit,
    steps (delayed_schedule (1 # 5))
      (init (decorate (E_delay_with_return_value (VFloat (1 # 5)))
               square [VInt 7] []) 0%Q tt) = Some s
    /\ In (Caller, LRead 0 (VInt 49)) (log (conf s))
    /\ returned s = Some (VInt 49).
Proof.
  eexists. split; [vm_compute; reflexivity|].
  split; [left; reflexivity|].
  refine (proj2 (proj2 (proj2 (proj2 (proj2
            (X11_the_slot_is_read_after_the_join
               (E_delay_with_return_value (VFloat (1 # 5)))
               square [VInt 7] [] 0%Q tt (delayed_schedule (1 # 5)) _
               Caller 0%nat (VInt 49) _ _))))));
    [vm_compute; reflexivity | left; reflexivity].
Defined.

Lemma X12_witness :
  exists s : @state unit,
    steps two_calls_schedule (init (client two_calls) 0%Q tt) = Some s
    /\ raised s = None.
Proof.
  eexists. split; [vm_compute; reflexivity|].
  apply (X12_no_sequence_of_calls_raises two_calls 0%Q tt two_calls_schedule).
  vm_compute; reflexivity.
Defined.

Lemma X13_witness :
  exists s : @state unit,
    steps [Act Caller; Act Caller]
      (init (client [mkInvocation E_thread_join square [VInt 7] []]) 0%Q tt)
    = Some s
    /\ step (Act Caller) s = None
    /\ (returned s = Some VNone
        \/ (exists t k u,
              caller s = Run (Join t k)
              /\ nth_error (pool (conf s)) t = Some u
              /\ status u = Started)).
Proof.
  eexists. split; [vm_compute; reflexivity|].
  split; [vm_compute; reflexivity|].
  apply (X13_the_caller_waits_only_in_join
           [mkInvocation E_thread_join square [VInt 7] []] 0%Q tt
           [Act Caller; Act Caller]);
    vm_compute; reflexivity.
Defined.

Lemma X14_witness :
  exists s : @state unit,
    steps two_calls_schedule (init (client two_calls) 0%Q tt) = Some s
    /\ (List.length (pool (conf s)) <= List.length two_calls)%nat.
Proof.
  eexists. split; [vm_compute; reflexivity|].
  refine (proj1 (proj2 (X14_each_call_builds_its_own_unit
                          two_calls 0%Q tt two_calls_schedule _ _))).
  vm_compute; reflexivity.
Defined.

Lemma oversized_positive : (0 < inject_Z 10000000000)%Q.
Proof. reflexivity. Qed.

Lemma oversized_too_long : (TIMEOUT_MAX < inject_Z 10000000000)%Q.
Proof. reflexivity. Qed.

Lemma X15_witness :
  exists s : @state Z,
    steps (bad_timeout_schedule Joined)
      (init (decorate (E_delay_join (VInt 10000000000)) bump [] []) 0%Q 0%Z)
    = Some s
    /\ returned s = Some VNone
    /\ world (conf s) = 0%Z
    /\ now (conf s) = 0%Q
    /\ (exists x, In (Unit 0, LExcepthook x) (log (conf s))).
Proof.
  destruct (proj2 (X15_an_oversized_delay_skips_the_target
                     (E_delay_join (VInt 10000000000)) bump [] []
                     (VInt 10000000000) (inject_Z 10000000000) 0%Q 0%Z
                     eq_refl eq_refl oversized_positive oversized_too_long))
    as (s & Hrun & Hr & Hw & Hn & Hj).
  exists s. split; [exact Hrun|]. split; [exact Hr|]. split; [exact Hw|].
  split; [exact Hn|]. exact (Hj eq_refl).
Defined.

End MoreOnPosix.
